(** * sqlpp11-connector-postgresql: error taxonomy and result cursor

    A shallow embedding of
      - include/sqlpp11/postgresql/exception.h  (the exception classes), and
      - src/bind_result.cpp                     (bind_result_t: next_impl and
                                                 the four _bind_*_result decoders),
    followed by the properties of the connector's specification that concern
    them. *)

From Stdlib Require Import ZArith String Ascii List Bool Lia.
Import ListNotations.

Local Open Scope string_scope.

(* ================================================================== *)
(** ** Part I. The exception classes of exception.h                    *)
(* ================================================================== *)

Module Exceptions.

(** One constructor per class declared in exception.h, in declaration order. *)
Inductive kind : Type :=
| failure
| broken_connection
| sql_error
| in_doubt_error
| feature_not_supported
| data_exception
| integrity_constraint_violation
| restrict_violation
| not_null_violation
| foreign_key_violation
| unique_violation
| check_violation
| invalid_cursor_state
| invalid_sql_statement_name
| invalid_cursor_name
| syntax_error
| undefined_column
| undefined_function
| undefined_table
| insufficient_privilege
| insufficient_resources
| disk_full
| out_of_memory
| too_many_connections
| plpgsql_error
| plpgsql_raise
| plpgsql_no_data_found
| plpgsql_too_many_rows.

Scheme Equality for kind.

Definition all_kinds : list kind :=
  [ failure; broken_connection; sql_error; in_doubt_error;
    feature_not_supported; data_exception; integrity_constraint_violation;
    restrict_violation; not_null_violation; foreign_key_violation;
    unique_violation; check_violation; invalid_cursor_state;
    invalid_sql_statement_name; invalid_cursor_name; syntax_error;
    undefined_column; undefined_function; undefined_table;
    insufficient_privilege; insufficient_resources; disk_full; out_of_memory;
    too_many_connections; plpgsql_error; plpgsql_raise;
    plpgsql_no_data_found; plpgsql_too_many_rows ].

(** [class k : public p].  Every class has one public base.  The base of
    [failure] is [::sqlpp::exception], which lies outside this taxonomy. *)
Definition base_class (k : kind) : option kind :=
  match k with
  | failure => None
  | broken_connection => Some failure
  | sql_error => Some failure
  | in_doubt_error => Some failure
  | feature_not_supported => Some sql_error
  | data_exception => Some sql_error
  | integrity_constraint_violation => Some sql_error
  | restrict_violation => Some integrity_constraint_violation
  | not_null_violation => Some integrity_constraint_violation
  | foreign_key_violation => Some integrity_constraint_violation
  | unique_violation => Some integrity_constraint_violation
  | check_violation => Some integrity_constraint_violation
  | invalid_cursor_state => Some sql_error
  | invalid_sql_statement_name => Some sql_error
  | invalid_cursor_name => Some sql_error
  | syntax_error => Some sql_error
  | undefined_column => Some syntax_error
  | undefined_function => Some syntax_error
  | undefined_table => Some syntax_error
  | insufficient_privilege => Some sql_error
  | insufficient_resources => Some sql_error
  | disk_full => Some insufficient_resources
  | out_of_memory => Some insufficient_resources
  | too_many_connections => Some broken_connection
  | plpgsql_error => Some sql_error
  | plpgsql_raise => Some plpgsql_error
  | plpgsql_no_data_found => Some plpgsql_error
  | plpgsql_too_many_rows => Some plpgsql_error
  end.

(** *** Object layout

    Only three classes declare data: the root keeps the message of the
    [std::runtime_error] it derives from (through [::sqlpp::exception]),
    [sql_error] adds [m_Q] and [syntax_error] adds [error_position]. *)

Record failure_members : Type := { what_arg : string }.

Record sql_error_members : Type :=
  { sql_error_base : failure_members;
    m_Q : string }.

Record syntax_error_members : Type :=
  { syntax_error_base : sql_error_members;
    error_position : Z }.

Inductive members : Type :=
| OfFailure (f : failure_members)
| OfSqlError (s : sql_error_members)
| OfSyntaxError (s : syntax_error_members).

(** A constructed exception: its most derived class and its members. *)
Record exception_object : Type :=
  { dynamic_type : kind;
    state : members }.

(** *** Constructors *)

(** Modelled from the spec: [failure::failure(const std::string &)] is
    declared in exception.h and defined in exception.cpp, which is not among
    the sources.  Section 4.1: every kind is constructed from a message, and
    section 8: the message accessor returns that message. *)
Definition failure_ctor (F : string) : failure_members :=
  {| what_arg := F |}.

(** Modelled from the spec: [broken_connection::broken_connection(const
    std::string &)], defined in exception.cpp; a failure kind carrying only
    its message. *)
Definition broken_connection_ctor (err : string) : failure_members :=
  failure_ctor err.

(** Modelled from the spec: [sql_error::sql_error(const std::string &)],
    defined in exception.cpp; no query text is given, so [m_Q] is empty. *)
Definition sql_error_ctor (err : string) : sql_error_members :=
  {| sql_error_base := failure_ctor err; m_Q := EmptyString |}.

(** Modelled from the spec: [sql_error::sql_error(const std::string &, const
    std::string &Q)], defined in exception.cpp; section 8: the query accessor
    returns exactly the query given. *)
Definition sql_error_ctor_Q (err Q : string) : sql_error_members :=
  {| sql_error_base := failure_ctor err; m_Q := Q |}.

(** Modelled from the spec: [in_doubt_error::in_doubt_error(const
    std::string &)], defined in exception.cpp. *)
Definition in_doubt_error_ctor (err : string) : failure_members :=
  failure_ctor err.

(** The remaining constructors are inline in exception.h. *)

Definition feature_not_supported_ctor (err : string) := sql_error_ctor err.
Definition feature_not_supported_ctor_Q (err Q : string) := sql_error_ctor_Q err Q.

Definition data_exception_ctor (err : string) := sql_error_ctor err.
Definition data_exception_ctor_Q (err Q : string) := sql_error_ctor_Q err Q.

Definition integrity_constraint_violation_ctor (err : string) := sql_error_ctor err.
Definition integrity_constraint_violation_ctor_Q (err Q : string) := sql_error_ctor_Q err Q.

Definition restrict_violation_ctor (err : string) :=
  integrity_constraint_violation_ctor err.
Definition restrict_violation_ctor_Q (err Q : string) :=
  integrity_constraint_violation_ctor_Q err Q.

Definition not_null_violation_ctor (err : string) :=
  integrity_constraint_violation_ctor err.
Definition not_null_violation_ctor_Q (err Q : string) :=
  integrity_constraint_violation_ctor_Q err Q.

Definition foreign_key_violation_ctor (err : string) :=
  integrity_constraint_violation_ctor err.
Definition foreign_key_violation_ctor_Q (err Q : string) :=
  integrity_constraint_violation_ctor_Q err Q.

Definition unique_violation_ctor (err : string) :=
  integrity_constraint_violation_ctor err.
Definition unique_violation_ctor_Q (err Q : string) :=
  integrity_constraint_violation_ctor_Q err Q.

Definition check_violation_ctor (err : string) :=
  integrity_constraint_violation_ctor err.
Definition check_violation_ctor_Q (err Q : string) :=
  integrity_constraint_violation_ctor_Q err Q.

Definition invalid_cursor_state_ctor (err : string) := sql_error_ctor err.
Definition invalid_cursor_state_ctor_Q (err Q : string) := sql_error_ctor_Q err Q.

Definition invalid_sql_statement_name_ctor (err : string) := sql_error_ctor err.
Definition invalid_sql_statement_name_ctor_Q (err Q : string) := sql_error_ctor_Q err Q.

Definition invalid_cursor_name_ctor (err : string) := sql_error_ctor err.
Definition invalid_cursor_name_ctor_Q (err Q : string) := sql_error_ctor_Q err Q.

(** [syntax_error(err, pos = -1)] and [syntax_error(err, Q, pos = -1)]. *)
Definition syntax_error_ctor (err : string) (pos : Z) : syntax_error_members :=
  {| syntax_error_base := sql_error_ctor err; error_position := pos |}.
Definition syntax_error_ctor_Q (err Q : string) (pos : Z) : syntax_error_members :=
  {| syntax_error_base := sql_error_ctor_Q err Q; error_position := pos |}.

Definition default_pos : Z := -1.

Definition undefined_column_ctor (err : string) := syntax_error_ctor err default_pos.
Definition undefined_column_ctor_Q (err Q : string) := syntax_error_ctor_Q err Q default_pos.

Definition undefined_function_ctor (err : string) := syntax_error_ctor err default_pos.
Definition undefined_function_ctor_Q (err Q : string) := syntax_error_ctor_Q err Q default_pos.

Definition undefined_table_ctor (err : string) := syntax_error_ctor err default_pos.
Definition undefined_table_ctor_Q (err Q : string) := syntax_error_ctor_Q err Q default_pos.

Definition insufficient_privilege_ctor (err : string) := sql_error_ctor err.
Definition insufficient_privilege_ctor_Q (err Q : string) := sql_error_ctor_Q err Q.

Definition insufficient_resources_ctor (err : string) := sql_error_ctor err.
Definition insufficient_resources_ctor_Q (err Q : string) := sql_error_ctor_Q err Q.

Definition disk_full_ctor (err : string) := insufficient_resources_ctor err.
Definition disk_full_ctor_Q (err Q : string) := insufficient_resources_ctor_Q err Q.

Definition out_of_memory_ctor (err : string) := insufficient_resources_ctor err.
Definition out_of_memory_ctor_Q (err Q : string) := insufficient_resources_ctor_Q err Q.

Definition too_many_connections_ctor (err : string) := broken_connection_ctor err.

Definition plpgsql_error_ctor (err : string) := sql_error_ctor err.
Definition plpgsql_error_ctor_Q (err Q : string) := sql_error_ctor_Q err Q.

Definition plpgsql_raise_ctor (err : string) := plpgsql_error_ctor err.
Definition plpgsql_raise_ctor_Q (err Q : string) := plpgsql_error_ctor_Q err Q.

Definition plpgsql_no_data_found_ctor (err : string) := plpgsql_error_ctor err.
Definition plpgsql_no_data_found_ctor_Q (err Q : string) := plpgsql_error_ctor_Q err Q.

Definition plpgsql_too_many_rows_ctor (err : string) := plpgsql_error_ctor err.
Definition plpgsql_too_many_rows_ctor_Q (err Q : string) := plpgsql_error_ctor_Q err Q.

(** [construct k err]: the object built by [k(err)], the constructor of class
    [k] that takes the message alone. *)
Definition construct (k : kind) (err : string) : exception_object :=
  {| dynamic_type := k;
     state :=
       match k with
       | failure => OfFailure (failure_ctor err)
       | broken_connection => OfFailure (broken_connection_ctor err)
       | sql_error => OfSqlError (sql_error_ctor err)
       | in_doubt_error => OfFailure (in_doubt_error_ctor err)
       | feature_not_supported => OfSqlError (feature_not_supported_ctor err)
       | data_exception => OfSqlError (data_exception_ctor err)
       | integrity_constraint_violation =>
           OfSqlError (integrity_constraint_violation_ctor err)
       | restrict_violation => OfSqlError (restrict_violation_ctor err)
       | not_null_violation => OfSqlError (not_null_violation_ctor err)
       | foreign_key_violation => OfSqlError (foreign_key_violation_ctor err)
       | unique_violation => OfSqlError (unique_violation_ctor err)
       | check_violation => OfSqlError (check_violation_ctor err)
       | invalid_cursor_state => OfSqlError (invalid_cursor_state_ctor err)
       | invalid_sql_statement_name =>
           OfSqlError (invalid_sql_statement_name_ctor err)
       | invalid_cursor_name => OfSqlError (invalid_cursor_name_ctor err)
       | syntax_error => OfSyntaxError (syntax_error_ctor err default_pos)
       | undefined_column => OfSyntaxError (undefined_column_ctor err)
       | undefined_function => OfSyntaxError (undefined_function_ctor err)
       | undefined_table => OfSyntaxError (undefined_table_ctor err)
       | insufficient_privilege => OfSqlError (insufficient_privilege_ctor err)
       | insufficient_resources => OfSqlError (insufficient_resources_ctor err)
       | disk_full => OfSqlError (disk_full_ctor err)
       | out_of_memory => OfSqlError (out_of_memory_ctor err)
       | too_many_connections => OfFailure (too_many_connections_ctor err)
       | plpgsql_error => OfSqlError (plpgsql_error_ctor err)
       | plpgsql_raise => OfSqlError (plpgsql_raise_ctor err)
       | plpgsql_no_data_found => OfSqlError (plpgsql_no_data_found_ctor err)
       | plpgsql_too_many_rows => OfSqlError (plpgsql_too_many_rows_ctor err)
       end |}.

(** [construct_Q k err Q]: the object built by [k(err, Q)], for the classes
    that have such a constructor (those derived from [sql_error]). *)
Definition construct_Q (k : kind) (err Q : string) : option exception_object :=
  let obj (m : members) := Some {| dynamic_type := k; state := m |} in
  match k with
  | failure | broken_connection | in_doubt_error | too_many_connections => None
  | sql_error => obj (OfSqlError (sql_error_ctor_Q err Q))
  | feature_not_supported => obj (OfSqlError (feature_not_supported_ctor_Q err Q))
  | data_exception => obj (OfSqlError (data_exception_ctor_Q err Q))
  | integrity_constraint_violation =>
      obj (OfSqlError (integrity_constraint_violation_ctor_Q err Q))
  | restrict_violation => obj (OfSqlError (restrict_violation_ctor_Q err Q))
  | not_null_violation => obj (OfSqlError (not_null_violation_ctor_Q err Q))
  | foreign_key_violation => obj (OfSqlError (foreign_key_violation_ctor_Q err Q))
  | unique_violation => obj (OfSqlError (unique_violation_ctor_Q err Q))
  | check_violation => obj (OfSqlError (check_violation_ctor_Q err Q))
  | invalid_cursor_state => obj (OfSqlError (invalid_cursor_state_ctor_Q err Q))
  | invalid_sql_statement_name =>
      obj (OfSqlError (invalid_sql_statement_name_ctor_Q err Q))
  | invalid_cursor_name => obj (OfSqlError (invalid_cursor_name_ctor_Q err Q))
  | syntax_error => obj (OfSyntaxError (syntax_error_ctor_Q err Q default_pos))
  | undefined_column => obj (OfSyntaxError (undefined_column_ctor_Q err Q))
  | undefined_function => obj (OfSyntaxError (undefined_function_ctor_Q err Q))
  | undefined_table => obj (OfSyntaxError (undefined_table_ctor_Q err Q))
  | insufficient_privilege => obj (OfSqlError (insufficient_privilege_ctor_Q err Q))
  | insufficient_resources => obj (OfSqlError (insufficient_resources_ctor_Q err Q))
  | disk_full => obj (OfSqlError (disk_full_ctor_Q err Q))
  | out_of_memory => obj (OfSqlError (out_of_memory_ctor_Q err Q))
  | plpgsql_error => obj (OfSqlError (plpgsql_error_ctor_Q err Q))
  | plpgsql_raise => obj (OfSqlError (plpgsql_raise_ctor_Q err Q))
  | plpgsql_no_data_found => obj (OfSqlError (plpgsql_no_data_found_ctor_Q err Q))
  | plpgsql_too_many_rows => obj (OfSqlError (plpgsql_too_many_rows_ctor_Q err Q))
  end.

(** *** Accessors *)

Definition failure_part (m : members) : failure_members :=
  match m with
  | OfFailure f => f
  | OfSqlError s => sql_error_base s
  | OfSyntaxError s => sql_error_base (syntax_error_base s)
  end.

(** [what()], inherited from [std::runtime_error]. *)
Definition what (e : exception_object) : string :=
  what_arg (failure_part (state e)).

(** [sql_error::query()]; [None] when the object has no [sql_error] part. *)
Definition query (e : exception_object) : option string :=
  match state e with
  | OfFailure _ => None
  | OfSqlError s => Some (m_Q s)
  | OfSyntaxError s => Some (m_Q (syntax_error_base s))
  end.

(** *** Catching

    A handler [catch (const handler &)] takes a thrown object whose class is
    [handler] or has [handler] among its public bases.  The walk up the
    [base_class] chain is bounded by the number of classes. *)
Fixpoint derives_within (fuel : nat) (thrown handler : kind) : bool :=
  kind_beq thrown handler ||
  match fuel with
  | O => false
  | S fuel' =>
      match base_class thrown with
      | None => false
      | Some p => derives_within fuel' p handler
      end
  end.

Definition catchable_as (thrown handler : kind) : bool :=
  derives_within (List.length all_kinds) thrown handler.

Definition catches (handler : kind) (e : exception_object) : bool :=
  catchable_as (dynamic_type e) handler.

(** *** The hierarchy as the specification draws it (section 4.1)

    The tree is given parent to children; [in_doubt_error] is listed apart as
    a sibling of [sql_error] under [failure]. *)
Definition spec_children (p : kind) : list kind :=
  match p with
  | failure => [broken_connection; sql_error; in_doubt_error]
  | broken_connection => [too_many_connections]
  | sql_error =>
      [ feature_not_supported; data_exception; integrity_constraint_violation;
        invalid_cursor_state; invalid_sql_statement_name; invalid_cursor_name;
        syntax_error; insufficient_privilege; insufficient_resources;
        plpgsql_error ]
  | integrity_constraint_violation =>
      [ restrict_violation; not_null_violation; foreign_key_violation;
        unique_violation; check_violation ]
  | syntax_error => [undefined_column; undefined_function; undefined_table]
  | insufficient_resources => [disk_full; out_of_memory]
  | plpgsql_error => [plpgsql_raise; plpgsql_no_data_found; plpgsql_too_many_rows]
  | _ => []
  end.

(** [spec_ancestor a k]: [a] is [k] itself or lies on the path from [k] up to
    the root of the drawn tree. *)
Inductive spec_ancestor : kind -> kind -> Prop :=
| anc_self : forall k, spec_ancestor k k
| anc_up : forall a p c,
    In c (spec_children p) -> spec_ancestor a p -> spec_ancestor a c.

(** *** Further accessors *)

(** The [sql_error] subobject, for an object whose class derives from
    [sql_error]. *)
Definition sql_error_part (m : members) : option sql_error_members :=
  match m with
  | OfFailure _ => None
  | OfSqlError s => Some s
  | OfSyntaxError s => Some (syntax_error_base s)
  end.

(** The public member [syntax_error::error_position], for an object whose
    class derives from [syntax_error]. *)
Definition error_position_of (e : exception_object) : option Z :=
  match state e with
  | OfSyntaxError s => Some (error_position s)
  | _ => None
  end.

(** The three classes declared directly under [failure]. *)
Definition branch_of (k : kind) : bool * bool * bool :=
  (catchable_as k broken_connection,
   catchable_as k sql_error,
   catchable_as k in_doubt_error).

End Exceptions.

(* ================================================================== *)
(** ** Part II. The result cursor of bind_result.cpp                   *)
(* ================================================================== *)

Module BindResult.

Local Open Scope Z_scope.

(** *** Machine integers *)

(** Conversion to a 32-bit unsigned integer ([uint32_t], [unsigned int]). *)
Definition uint32 (z : Z) : Z := z mod 2 ^ 32.

(** Conversion to [int] (32-bit two's complement), as done for the row and
    column arguments of the libpq accessors. *)
Definition to_int (z : Z) : Z :=
  let m := z mod 2 ^ 32 in
  if m <? 2 ^ 31 then m else m - 2 ^ 32.

(** Conversion to [size_t] (64 bits). *)
Definition to_size_t (z : Z) : Z := z mod 2 ^ 64.

Definition INT64_MAX : Z := 2 ^ 63 - 1.
Definition INT64_MIN : Z := - 2 ^ 63.

(** *** The libpq result buffer

    The cursor reads the buffer only through five libpq accessors.  A
    [PGresult] is modelled by what these accessors answer.  A [char *] is
    modelled by the bytes it points to, the null pointer by [None]. *)
Record PGresult : Type :=
  { PQntuples : Z;
    PQnfields : Z;
    PQgetvalue : Z -> Z -> option string;
    PQgetlength : Z -> Z -> Z;
    PQgetisnull : Z -> Z -> Z }.

(** A buffer that holds a table of cells ([None] is SQL NULL) and answers the
    way libpq documents: outside the table [PQgetvalue] is the null pointer,
    [PQgetlength] is 0 and [PQgetisnull] is 1; a NULL cell has the empty string
    as value and length 0. *)
Definition pg_table : Type := list (list (option string)).

Definition pg_cell (numAttributes : Z) (tuples : pg_table)
    (tup_num field_num : Z) : option (option string) :=
  if (0 <=? tup_num) && (0 <=? field_num) && (field_num <? numAttributes)
  then
    match nth_error tuples (Z.to_nat tup_num) with
    | Some row => nth_error row (Z.to_nat field_num)
    | None => None
    end
  else None.

Definition make_result (numAttributes : Z) (tuples : pg_table) : PGresult :=
  {| PQntuples := Z.of_nat (List.length tuples);
     PQnfields := numAttributes;
     PQgetvalue := fun r c =>
       match pg_cell numAttributes tuples r c with
       | Some (Some text) => Some text
       | Some None => Some EmptyString
       | None => None
       end;
     PQgetlength := fun r c =>
       match pg_cell numAttributes tuples r c with
       | Some (Some text) => Z.of_nat (String.length text)
       | _ => 0
       end;
     PQgetisnull := fun r c =>
       match pg_cell numAttributes tuples r c with
       | Some (Some _) => 0
       | _ => 1
       end |}.

(** *** The statement handle *)

(** Modelled from the spec: the declaration of
    [detail::prepared_statement_handle_t] (detail/prepared_statement_handle.h)
    is not among the sources.  Section 3 lists what the handle owns: the raw
    result buffer, the 0-based row cursor, the lazily computed total row count
    and field count, and the debug flag.  bind_result.cpp compares the counts
    with [0U], so they are unsigned; they are taken as 32 bits wide. *)
Record prepared_statement_handle_t : Type :=
  { result : PGresult;
    debug : bool;
    count : Z;
    totalCount : Z;
    fields : Z }.

(** Modelled from the spec: a handle on which nothing was called yet has its
    cursor and both cached counts at zero (section 3: 0-based cursor, counts
    computed lazily on first access). *)
Definition fresh_handle (res : PGresult) (dbg : bool) : prepared_statement_handle_t :=
  {| result := res; debug := dbg; count := 0; totalCount := 0; fields := 0 |}.

Definition set_count (h : prepared_statement_handle_t) (v : Z) :=
  {| result := result h; debug := debug h;
     count := v; totalCount := totalCount h; fields := fields h |}.

Definition set_totalCount (h : prepared_statement_handle_t) (v : Z) :=
  {| result := result h; debug := debug h;
     count := count h; totalCount := v; fields := fields h |}.

Definition set_fields (h : prepared_statement_handle_t) (v : Z) :=
  {| result := result h; debug := debug h;
     count := count h; totalCount := totalCount h; fields := v |}.

Definition set_debug (h : prepared_statement_handle_t) (b : bool) :=
  {| result := result h; debug := b;
     count := count h; totalCount := totalCount h; fields := fields h |}.

(** [bind_result_t] holds a [std::shared_ptr] to the handle: the address the
    pointer holds (printed by the debug traces) and the handle it points to. *)
Record bind_result_t : Type :=
  { _handle_get : Z;
    _handle : prepared_statement_handle_t }.

Definition with_handle (this : bind_result_t) (h : prepared_statement_handle_t) :=
  {| _handle_get := _handle_get this; _handle := h |}.


(** *** Effects *)

(** A line written to [std::cerr]: the literal text and the value streamed
    after it (a handle address or a column index). *)
Record cerr_line : Type :=
  { message : string;
    operand : Z }.

Definition trace (enabled : bool) (msg : string) (arg : Z) : list cerr_line :=
  if enabled then [ {| message := msg; operand := arg |} ] else [].

(** [bind_result_t::bind_result_t(const std::shared_ptr<...> &handle)] for a
    pointer that is not null: [get] is the address it holds, [h] the handle
    there. *)
Definition bind_result_t_ctor (get : Z) (h : prepared_statement_handle_t)
    : bind_result_t * list cerr_line :=
  ({| _handle_get := get; _handle := h |},
   trace (debug h)
     "PostgreSQL debug: constructing bind result, using handle at: " get).

(** A cursor just constructed over a handle on which nothing was called. *)
Definition fresh (get : Z) (res : PGresult) (dbg : bool) : bind_result_t :=
  fst (bind_result_t_ctor get (fresh_handle res dbg)).

(** How a call ends: it returns, it throws [sqlpp::exception(what)], or it has
    no defined behaviour (a [std::string] built from a null pointer). *)
Inductive outcome (A : Type) : Type :=
| Returns (a : A)
| Throws (what_arg : string)
| Undefined.

Arguments Returns {A} a.
Arguments Throws {A} what_arg.
Arguments Undefined {A}.

(** A completed call: how it ended, the cursor afterwards, and what it wrote
    to [std::cerr]. *)
Record call (A : Type) : Type :=
  { ended : outcome A;
    after : bind_result_t;
    cerr : list cerr_line }.

Arguments ended {A} c.
Arguments after {A} c.
Arguments cerr {A} c.

Definition out_of_range : string := "PostgreSQL error: index out of range".

Definition raised {A : Type} (o : outcome A) : bool :=
  match o with
  | Throws _ => true
  | _ => false
  end.

(** *** Formatted input from a [std::istringstream]

    [in >> x] first builds a sentry, which skips leading white space and fails
    (failbit and eofbit, nothing stored) when no character is left.  An
    extraction yields the value of the target afterwards and the failbit. *)

Definition isspace (c : ascii) : bool :=
  let n := nat_of_ascii c in
  (Nat.eqb n 32 || (Nat.leb 9 n && Nat.leb n 13))%bool.

Fixpoint skipws (s : string) : string :=
  match s with
  | EmptyString => EmptyString
  | String c rest => if isspace c then skipws rest else s
  end.

Definition sentry (s : string) : option string :=
  match skipws s with
  | EmptyString => None
  | field => Some field
  end.

(** [char] to [signed char]. *)
Definition schar_of_ascii (c : ascii) : Z :=
  let n := Z.of_nat (nat_of_ascii c) in
  if n <? 128 then n else n - 256.

(** [operator>>(std::istream &, signed char &)]: one character is read. *)
Definition extract_schar (text : string) (old : Z) : Z * bool :=
  match sentry text with
  | Some (String c _) => (schar_of_ascii c, false)
  | _ => (old, true)
  end.

Definition digit_of (c : ascii) : option Z :=
  let n := nat_of_ascii c in
  if (Nat.leb 48 n && Nat.leb n 57)%bool then Some (Z.of_nat n - 48) else None.

(** The longest prefix of decimal digits, as a number; [acc] is [None] while
    no digit was read. *)
Fixpoint read_digits (s : string) (acc : option Z) : option Z :=
  match s with
  | EmptyString => acc
  | String c rest =>
      match digit_of c with
      | Some d =>
          read_digits rest
            (Some (10 * match acc with Some a => a | None => 0 end + d))
      | None => acc
      end
  end.

(** [std::num_get<char>::get] for [long] in base 10 (C++11): an optional sign
    and digits; without a digit 0 is stored, a value out of range is replaced
    by the nearest bound, and both set failbit. *)
Definition num_get_long (field : string) : Z * bool :=
  let '(negative, digits) :=
    match field with
    | String "-"%char rest => (true, rest)
    | String "+"%char rest => (false, rest)
    | _ => (false, field)
    end in
  match read_digits digits None with
  | None => (0, true)
  | Some n =>
      let v := if negative then - n else n in
      if INT64_MAX <? v then (INT64_MAX, true)
      else if v <? INT64_MIN then (INT64_MIN, true)
      else (v, false)
  end.

(** [operator>>(long &)] on a stream over [text]. *)
Definition extract_long (text : string) (old : Z) : Z * bool :=
  match sentry text with
  | Some field => num_get_long field
  | None => (old, true)
  end.

(** *** bind_result_t *)

Definition fetch_fields (h : prepared_statement_handle_t) : prepared_statement_handle_t :=
  if fields h =? 0 then set_fields h (uint32 (PQnfields (result h))) else h.

(** [bool bind_result_t::next_impl()] *)
Definition next_impl (this : bind_result_t) : call bool :=
  let h := _handle this in
  let log :=
    trace (debug h) "PostgreSQL debug: accessing next row of handle at "
      (_handle_get this) in
  if totalCount h =? 0 then
    let h1 := set_totalCount h (uint32 (PQntuples (result h))) in
    {| ended := Returns true; after := with_handle this (fetch_fields h1); cerr := log |}
  else if count h <? uint32 (totalCount h - 1) then
    let h1 := set_count h (uint32 (count h + 1)) in
    {| ended := Returns true; after := with_handle this (fetch_fields h1); cerr := log |}
  else
    {| ended := Returns false; after := this; cerr := log |}.

(** The cell the decoders address: [PQgetvalue(result, count, index)] takes
    two [int]. *)
Definition row_arg (h : prepared_statement_handle_t) : Z := to_int (count h).
Definition col_arg (index : Z) : Z := to_int index.

(** [int] to [bool]. *)
Definition bool_of_int (z : Z) : bool := negb (z =? 0).

(** [void bind_result_t::_bind_boolean_result(size_t index, signed char
    *value, bool *is_null)]; [value] and [is_null] are what the two pointers
    point to on entry, the result is what they point to on return. *)
Definition _bind_boolean_result (this : bind_result_t) (index : Z)
    (value : Z) (is_null : bool) : call (Z * bool) :=
  let h := _handle this in
  let log :=
    trace (debug h) "PostgreSQL debug: binding boolean result at index: " index in
  if fields h <? index then
    {| ended := Throws out_of_range; after := this; cerr := log |}
  else
    match PQgetvalue (result h) (row_arg h) (col_arg index) with
    | None => {| ended := Undefined; after := this; cerr := log |}
    | Some text =>
        {| ended :=
             Returns (fst (extract_schar text value),
                      bool_of_int (PQgetisnull (result h) (row_arg h) (col_arg index)));
           after := this; cerr := log |}
    end.

(** [void bind_result_t::_bind_integral_result(size_t index, int64_t *value,
    bool *is_null)] *)
Definition _bind_integral_result (this : bind_result_t) (index : Z)
    (value : Z) (is_null : bool) : call (Z * bool) :=
  let h := _handle this in
  let log :=
    trace (debug h) "PostgreSQL debug: binding integral result at index: " index in
  if fields h <? index then
    {| ended := Throws out_of_range; after := this; cerr := log |}
  else
    match PQgetvalue (result h) (row_arg h) (col_arg index) with
    | None => {| ended := Undefined; after := this; cerr := log |}
    | Some text =>
        {| ended :=
             Returns (fst (extract_long text value),
                      bool_of_int (PQgetisnull (result h) (row_arg h) (col_arg index)));
           after := this; cerr := log |}
    end.

(** [void bind_result_t::_bind_text_result(size_t index, const char **value,
    size_t *len)]: the pointer libpq gives is stored as it is. *)
Definition _bind_text_result (this : bind_result_t) (index : Z)
    (value : option string) (len : Z) : call (option string * Z) :=
  let h := _handle this in
  let log :=
    trace (debug h) "PostgreSQL debug: binding text result at index: " index in
  if fields h <? index then
    {| ended := Throws out_of_range; after := this; cerr := log |}
  else
    {| ended :=
         Returns (PQgetvalue (result h) (row_arg h) (col_arg index),
                  to_size_t (PQgetlength (result h) (row_arg h) (col_arg index)));
       after := this; cerr := log |}.

Section FloatingPoint.

(** The type [double] and [std::num_get<char>::get] for it are taken as
    given: the value stored for a field that starts with a character other
    than white space, and the failbit. *)
Variable double : Type.
Variable num_get_double : string -> double * bool.

(** [operator>>(double &)] on a stream over [text]. *)
Definition extract_double (text : string) (old : double) : double * bool :=
  match sentry text with
  | Some field => num_get_double field
  | None => (old, true)
  end.

(** [void bind_result_t::_bind_floating_point_result(size_t index, double
    *value, bool *is_null)] *)
Definition _bind_floating_point_result (this : bind_result_t) (index : Z)
    (value : double) (is_null : bool) : call (double * bool) :=
  let h := _handle this in
  let log :=
    trace (debug h) "PostgreSQL debug: binding floating_point result at index: "
      index in
  if fields h <? index then
    {| ended := Throws out_of_range; after := this; cerr := log |}
  else
    match PQgetvalue (result h) (row_arg h) (col_arg index) with
    | None => {| ended := Undefined; after := this; cerr := log |}
    | Some text =>
        {| ended :=
             Returns (fst (extract_double text value),
                      bool_of_int (PQgetisnull (result h) (row_arg h) (col_arg index)));
           after := this; cerr := log |}
    end.

(** *** Sequences of calls *)

(** One call on the cursor, with the arguments it is given. *)
Inductive operation : Type :=
| advance
| decode_boolean (index : Z) (value : Z) (is_null : bool)
| decode_floating_point (index : Z) (value : double) (is_null : bool)
| decode_integral (index : Z) (value : Z) (is_null : bool)
| decode_text (index : Z) (value : option string) (len : Z).

(** The cursor after one call, however the call ended. *)
Definition perform (this : bind_result_t) (o : operation) : bind_result_t :=
  match o with
  | advance => after (next_impl this)
  | decode_boolean i v n => after (_bind_boolean_result this i v n)
  | decode_floating_point i v n => after (_bind_floating_point_result this i v n)
  | decode_integral i v n => after (_bind_integral_result this i v n)
  | decode_text i v l => after (_bind_text_result this i v l)
  end.

Definition perform_all (this : bind_result_t) (ops : list operation) : bind_result_t :=
  fold_left perform ops this.

End FloatingPoint.

Arguments advance {double}.
Arguments decode_boolean {double} index value is_null.
Arguments decode_floating_point {double} index value is_null.
Arguments decode_integral {double} index value is_null.
Arguments decode_text {double} index value len.
Arguments extract_double {double} num_get_double text old.
Arguments _bind_floating_point_result {double} num_get_double this index value is_null.
Arguments perform {double} num_get_double this o.
Arguments perform_all {double} num_get_double this ops.

(** [next_n n this]: [n] calls of [next_impl] in a row: what each returned,
    in order, and the cursor after the last. *)
Fixpoint next_n (n : nat) (this : bind_result_t) : list (outcome bool) * bind_result_t :=
  match n with
  | O => ([], this)
  | S n' =>
      let c := next_impl this in
      let '(rest, final) := next_n n' (after c) in
      (ended c :: rest, final)
  end.

(** The same cursor with the handle's debug flag set to [b]. *)
Definition with_debug (this : bind_result_t) (b : bool) : bind_result_t :=
  with_handle this (set_debug (_handle this) b).

(** Iteration has started and the row cursor addresses a row. *)
Definition iterating (this : bind_result_t) : Prop :=
  1 <= totalCount (_handle this) < 2 ^ 32 /\
  0 <= count (_handle this) < totalCount (_handle this).

(** *** Buffers used in the examples below *)

(** No row, two columns. *)
Definition empty_result : PGresult := make_result 2 [].

(** Two rows of three columns; the middle cell of the first row is NULL. *)
Definition sample_result : PGresult :=
  make_result 3
    [ [Some "t"; None; Some "42"];
      [Some "f"; Some "2.5"; Some "99999999999999999999"] ]%string.

(** One row, one column: a NULL cell, and a present empty string. *)
Definition null_cell_result : PGresult := make_result 1 [ [None] ].
Definition empty_text_result : PGresult := make_result 1 [ [Some EmptyString] ].

(** A stand-in for [double] in the examples: integers, read like [long]. *)
Definition sample_num_get_double (field : string) : Z * bool := num_get_long field.

(** *** Sequences of calls, counted *)

Definition is_advance {double : Type} (o : operation double) : bool :=
  match o with
  | advance => true
  | _ => false
  end.

(** How many calls of [next_impl] a sequence holds. *)
Definition advances {double : Type} (ops : list (operation double)) : nat :=
  List.length (filter is_advance ops).

(** *** Cell texts *)

(** The text libpq hands out for a cell: empty for SQL NULL. *)
Definition cell_text (cell : option string) : string :=
  match cell with
  | Some text => text
  | None => EmptyString
  end.

Definition cell_is_null (cell : option string) : bool :=
  match cell with
  | Some _ => false
  | None => true
  end.

(** The decimal numeral of an integer, the text PostgreSQL sends for an
    integer column: a minus sign for a negative number, then the digits
    without leading zeros.  [decimal_digits] writes the digits of [n >= 0] in
    front of [tail]; 20 digits are enough for 64 bits. *)
Definition digit_char (d : Z) : ascii := ascii_of_nat (Z.to_nat (48 + d)).

Fixpoint decimal_digits (fuel : nat) (n : Z) (tail : string) : string :=
  match fuel with
  | O => tail
  | S fuel' =>
      let tail' := String (digit_char (n mod 10)) tail in
      if n <? 10 then tail' else decimal_digits fuel' (n / 10) tail'
  end.

Definition decimal_text (z : Z) : string :=
  if z <? 0 then String "-"%char (decimal_digits 20 (- z) EmptyString)
  else decimal_digits 20 z EmptyString.

(** *** The shape of a cell text

    A text is described by its parts, in order: leading white space, an
    optional sign ([Some true] is minus, [Some false] is plus), decimal
    digits, and the rest. *)

(** The white space of the "C" locale: space, tab, line feed, vertical tab,
    form feed, carriage return. *)
Definition white_space : list ascii :=
  [ " "; "009"; "010"; "011"; "012"; "013" ]%char.

Definition sign_text (sign : option bool) : string :=
  match sign with
  | Some true => "-"
  | Some false => "+"
  | None => EmptyString
  end.

Definition numeral_text (ds : list Z) : string :=
  string_of_list_ascii (map digit_char ds).

(** The number a list of digits denotes, most significant digit first. *)
Definition numeral_value (ds : list Z) : Z :=
  fold_left (fun a d => 10 * a + d) ds 0.

Definition signed_value (sign : option bool) (ds : list Z) : Z :=
  match sign with
  | Some true => - numeral_value ds
  | _ => numeral_value ds
  end.

Definition cell_shape (ws : list ascii) (sign : option bool) (ds : list Z)
    (rest : string) : string :=
  string_of_list_ascii ws ++ sign_text sign ++ numeral_text ds ++ rest.

(** The rest does not continue what comes before it: it does not start with
    a digit, and where neither sign nor digit precedes it, it does not start
    with white space or a sign either. *)
Definition field_end (sign : option bool) (ds : list Z) (rest : string) : Prop :=
  match rest with
  | EmptyString => True
  | String c _ =>
      (forall d, 0 <= d <= 9 -> c <> digit_char d) /\
      (sign = None -> ds = [] ->
       ~ In c white_space /\ c <> "-"%char /\ c <> "+"%char)
  end.

(** Nothing but white space. *)
Definition blank (sign : option bool) (ds : list Z) (rest : string) : Prop :=
  sign = None /\ ds = [] /\ rest = EmptyString.

(** What is stored for a number read from the text: the number, or the bound
    of [int64_t] it lies beyond; the second component is failbit. *)
Definition stored_long (v : Z) : Z * bool :=
  if INT64_MAX <? v then (INT64_MAX, true)
  else if v <? INT64_MIN then (INT64_MIN, true)
  else (v, false).

(** The table of cells of [sample_result]. *)
Definition sample_table : pg_table :=
  [ [Some "t"; None; Some "42"];
    [Some "f"; Some "2.5"; Some "99999999999999999999"] ]%string.

(** One row of texts on which an extraction fails: blank, no digit, a number
    below [int64_t], a sign alone. *)
Definition failing_result : PGresult :=
  make_result 4
    [ [Some "  "; Some "abc"; Some "-99999999999999999999"; Some "-"] ]%string.

End BindResult.

(* ================================================================== *)
(** ** Part III. Properties of the exception classes                   *)
(* ================================================================== *)

Section ExceptionFacts.

Import Exceptions.

(** The class declarations and the drawn tree list the same edges. *)
Lemma base_class_spec_children (p c : kind) :
  base_class c = Some p <-> In c (spec_children p).
Proof.
  split.
  - destruct c; simpl; intro H; inversion H; subst; simpl; tauto.
  - destruct p; simpl; intro H;
      repeat (destruct H as [H | H]; [subst c; reflexivity | ]);
      contradiction.
Qed.

Lemma catchable_as_self (k : kind) : catchable_as k k = true.
Proof. destruct k; reflexivity. Qed.

(** A handler for a class also takes the classes derived from it. *)
Lemma catchable_as_base (c p a : kind) :
  base_class c = Some p -> catchable_as p a = true -> catchable_as c a = true.
Proof.
  destruct c; simpl; intro H; inversion H; subst p; clear H;
    destruct a; vm_compute; intro H; try reflexivity; discriminate H.
Qed.

Lemma spec_ancestor_base (c p a : kind) :
  base_class c = Some p -> spec_ancestor a p -> spec_ancestor a c.
Proof.
  intros H Ha. apply anc_up with (p := p); [ | exact Ha ].
  apply base_class_spec_children; exact H.
Qed.

Lemma catchable_as_spec_ancestor (k a : kind) :
  catchable_as k a = true <-> spec_ancestor a k.
Proof.
  split.
  - destruct k; destruct a; vm_compute; intro H; try discriminate H; clear H;
      first
        [ apply anc_self
        | eapply spec_ancestor_base; [ reflexivity | apply anc_self ]
        | eapply spec_ancestor_base; [ reflexivity | ];
          eapply spec_ancestor_base; [ reflexivity | apply anc_self ]
        | eapply spec_ancestor_base; [ reflexivity | ];
          eapply spec_ancestor_base; [ reflexivity | ];
          eapply spec_ancestor_base; [ reflexivity | apply anc_self ] ].
  - intro H. induction H as [k | a p c Hin _ IH].
    + apply catchable_as_self.
    + apply catchable_as_base with (p := p); [ | exact IH ].
      apply base_class_spec_children; exact Hin.
Qed.

(** C2. Every exception class constructed with a message [m] returns [m] from
    [what()], whether built by the constructor taking the message alone or by
    the one taking message and query; a thrown object is taken by a handler
    exactly when the handler's class is the object's class or one of its
    ancestors in the tree of section 4.1; every class is taken by a handler
    for [failure]; and the base classes declared in exception.h are exactly
    the parent-child edges of that tree. *)
Theorem exception_message_and_hierarchy :
  (forall k m, what (construct k m) = m) /\
  (forall k m Q,
      option_map what (construct_Q k m Q)
      = option_map (fun _ => m) (construct_Q k m Q)) /\
  (forall k m a, catches a (construct k m) = true <-> spec_ancestor a k) /\
  (forall k m, catches failure (construct k m) = true) /\
  (forall p c, base_class c = Some p <-> In c (spec_children p)).
Proof.
  repeat split.
  - destruct k; reflexivity.
  - destruct k; reflexivity.
  - unfold catches; simpl. apply catchable_as_spec_ancestor.
  - unfold catches; simpl. apply catchable_as_spec_ancestor.
  - destruct k; reflexivity.
  - apply base_class_spec_children.
  - apply base_class_spec_children.
Qed.

End ExceptionFacts.

(* ================================================================== *)
(** ** Part IV. Properties of the result cursor                        *)
(* ================================================================== *)

Import BindResult.

Local Open Scope Z_scope.
Local Open Scope list_scope.

Lemma uint32_small (z : Z) : 0 <= z < 2 ^ 32 -> uint32 z = z.
Proof. intro H. unfold uint32. apply Z.mod_small. exact H. Qed.

Lemma to_int_small (z : Z) : 0 <= z < 2 ^ 31 -> to_int z = z.
Proof.
  intro H. unfold to_int.
  rewrite Z.mod_small by lia.
  destruct (Z.ltb_spec z (2 ^ 31)); [ reflexivity | lia ].
Qed.

(** *** [next_impl], one call at a time *)

Lemma fetch_fields_count (h : prepared_statement_handle_t) :
  count (fetch_fields h) = count h /\
  totalCount (fetch_fields h) = totalCount h /\
  result (fetch_fields h) = result h /\
  debug (fetch_fields h) = debug h.
Proof. unfold fetch_fields. destruct (fields h =? 0); simpl; auto. Qed.

Lemma fetch_fields_fields (h : prepared_statement_handle_t) :
  fields (fetch_fields h)
  = if fields h =? 0 then uint32 (PQnfields (result h)) else fields h.
Proof. unfold fetch_fields. destruct (fields h =? 0); reflexivity. Qed.

(** First call, or any call while the cached total is 0. *)
Lemma next_impl_fetch (this : bind_result_t) :
  totalCount (_handle this) = 0 ->
  ended (next_impl this) = Returns true /\
  count (_handle (after (next_impl this))) = count (_handle this) /\
  totalCount (_handle (after (next_impl this)))
  = uint32 (PQntuples (result (_handle this))).
Proof.
  intro H. unfold next_impl. rewrite H. simpl.
  destruct (fetch_fields_count
              (set_totalCount (_handle this)
                 (uint32 (PQntuples (result (_handle this))))))
    as (Hc & Ht & _).
  rewrite Hc, Ht. auto.
Qed.

(** A call while a further row exists. *)
Lemma next_impl_move (this : bind_result_t) :
  1 <= totalCount (_handle this) < 2 ^ 32 ->
  0 <= count (_handle this) < totalCount (_handle this) - 1 ->
  ended (next_impl this) = Returns true /\
  count (_handle (after (next_impl this))) = count (_handle this) + 1 /\
  totalCount (_handle (after (next_impl this))) = totalCount (_handle this).
Proof.
  intros Ht Hc. unfold next_impl.
  destruct (Z.eqb_spec (totalCount (_handle this)) 0) as [E | _]; [ lia | ].
  rewrite (uint32_small (totalCount (_handle this) - 1)) by lia.
  destruct (Z.ltb_spec (count (_handle this)) (totalCount (_handle this) - 1))
    as [_ | E]; [ | lia ].
  simpl.
  destruct (fetch_fields_count
              (set_count (_handle this) (uint32 (count (_handle this) + 1))))
    as (Hc' & Ht' & _).
  rewrite Hc', Ht'. simpl.
  rewrite uint32_small by lia. auto.
Qed.

(** A call on the last row: nothing changes. *)
Lemma next_impl_exhausted (this : bind_result_t) :
  1 <= totalCount (_handle this) < 2 ^ 32 ->
  count (_handle this) = totalCount (_handle this) - 1 ->
  ended (next_impl this) = Returns false /\ after (next_impl this) = this.
Proof.
  intros Ht Hc. unfold next_impl.
  destruct (Z.eqb_spec (totalCount (_handle this)) 0) as [E | _]; [ lia | ].
  rewrite (uint32_small (totalCount (_handle this) - 1)) by lia.
  destruct (Z.ltb_spec (count (_handle this)) (totalCount (_handle this) - 1))
    as [E | _]; [ lia | ].
  simpl. auto.
Qed.

(** No call replaces the buffer or the address of the handle. *)
Lemma next_impl_result (this : bind_result_t) :
  result (_handle (after (next_impl this))) = result (_handle this).
Proof.
  unfold next_impl.
  destruct (totalCount (_handle this) =? 0);
    [ | destruct (count (_handle this) <? uint32 (totalCount (_handle this) - 1)) ];
    simpl; try reflexivity;
    match goal with
    | |- result (fetch_fields ?h) = _ =>
        destruct (fetch_fields_count h) as (_ & _ & Hr & _); rewrite Hr; reflexivity
    end.
Qed.

(** *** Runs of [next_impl] *)

Lemma next_n_S (n : nat) (this : bind_result_t) :
  next_n (S n) this
  = (ended (next_impl this) :: fst (next_n n (after (next_impl this))),
     snd (next_n n (after (next_impl this)))).
Proof.
  cbn [next_n]. destruct (next_n n (after (next_impl this))); reflexivity.
Qed.

Lemma next_n_moving (k : nat) :
  forall this,
    1 <= totalCount (_handle this) < 2 ^ 32 ->
    0 <= count (_handle this) ->
    count (_handle this) + Z.of_nat k <= totalCount (_handle this) - 1 ->
    fst (next_n k this) = repeat (Returns true) k /\
    count (_handle (snd (next_n k this))) = count (_handle this) + Z.of_nat k /\
    totalCount (_handle (snd (next_n k this))) = totalCount (_handle this).
Proof.
  induction k as [| k IH]; intros this Ht Hc Hk.
  - simpl. repeat split; lia.
  - destruct (next_impl_move this Ht) as (He & Hc' & Ht'); [ lia | ].
    simpl next_n.
    specialize (IH (after (next_impl this))).
    rewrite Hc', Ht' in IH.
    destruct IH as (Hl & Hcn & Htn); [ lia | lia | lia | ].
    destruct (next_n k (after (next_impl this))) as [rest final].
    simpl in *. rewrite He, Hl. repeat split; lia.
Qed.

Lemma next_n_exhausted (k : nat) :
  forall this,
    1 <= totalCount (_handle this) < 2 ^ 32 ->
    count (_handle this) = totalCount (_handle this) - 1 ->
    next_n k this = (repeat (Returns false) k, this).
Proof.
  induction k as [| k IH]; intros this Ht Hc.
  - reflexivity.
  - destruct (next_impl_exhausted this Ht Hc) as (He & Ha).
    simpl. rewrite Ha, He, (IH this Ht Hc). reflexivity.
Qed.

Lemma next_n_add (a b : nat) :
  forall this,
    next_n (a + b) this
    = (fst (next_n a this) ++ fst (next_n b (snd (next_n a this))),
       snd (next_n b (snd (next_n a this)))).
Proof.
  induction a as [| a IH]; intro this.
  - simpl. destruct (next_n b this); reflexivity.
  - simpl. rewrite IH.
    destruct (next_n a (after (next_impl this))) as [l t]. reflexivity.
Qed.

(** On a buffer of [N >= 1] rows a fresh cursor answers [true] to the first
    [N] calls of [next_impl] and [false] to every later one, and the later
    calls leave the cursor as the first [N] left it. *)
Lemma next_impl_counts_rows (get : Z) (res : PGresult) (dbg : bool) (N k : nat) :
  PQntuples res = Z.of_nat N ->
  (1 <= N)%nat ->
  Z.of_nat N < 2 ^ 32 ->
  fst (next_n (N + k) (fresh get res dbg))
  = repeat (Returns true) N ++ repeat (Returns false) k /\
  snd (next_n (N + k) (fresh get res dbg)) = snd (next_n N (fresh get res dbg)).
Proof.
  intros HN H1 H2.
  destruct N as [| n]; [ lia | ].
  destruct (next_impl_fetch (fresh get res dbg) eq_refl) as (He & Hc & Ht).
  change (count (_handle (fresh get res dbg))) with 0 in Hc.
  change (result (_handle (fresh get res dbg))) with res in Ht.
  assert (Ht' : totalCount (_handle (after (next_impl (fresh get res dbg))))
                = Z.of_nat (S n)).
  { rewrite Ht, HN. apply uint32_small. lia. }
  clear Ht.
  destruct (next_n_moving n (after (next_impl (fresh get res dbg))))
    as (Hl & Hcn & Htn); [ lia | lia | lia | ].
  assert (Hfirst : fst (next_n (S n) (fresh get res dbg)) = repeat (Returns true) (S n)).
  { rewrite next_n_S. cbn [fst]. rewrite He, Hl. reflexivity. }
  assert (Hsnd : snd (next_n (S n) (fresh get res dbg))
                 = snd (next_n n (after (next_impl (fresh get res dbg))))).
  { rewrite next_n_S. reflexivity. }
  rewrite next_n_add, Hfirst. cbn [fst snd].
  rewrite next_n_exhausted.
  - split; reflexivity.
  - rewrite Hsnd, Htn. lia.
  - rewrite Hsnd, Hcn, Htn. lia.
Qed.

(** Calls of [next_impl] while the cached total is 0 and the buffer has no
    row: the total is fetched again each time. *)
Lemma next_n_zero_rows (n : nat) :
  forall this,
    PQntuples (result (_handle this)) = 0 ->
    totalCount (_handle this) = 0 ->
    fst (next_n n this) = repeat (Returns true) n /\
    count (_handle (snd (next_n n this))) = count (_handle this) /\
    totalCount (_handle (snd (next_n n this))) = 0.
Proof.
  induction n as [| n IH]; intros this Hres Ht.
  - simpl. auto.
  - destruct (next_impl_fetch this Ht) as (He & Hc & Ht').
    rewrite Hres in Ht'. change (uint32 0) with 0 in Ht'.
    destruct (IH (after (next_impl this))) as (Hl & Hcn & Htn).
    + rewrite next_impl_result. exact Hres.
    + exact Ht'.
    + rewrite next_n_S. cbn [fst snd]. rewrite He, Hl, Hcn, Hc. auto.
Qed.

(** *** The decoders *)

Section Decoders.

Variable double : Type.
Variable num_get_double : string -> double * bool.

Ltac decoder_cases this index :=
  unfold _bind_boolean_result, _bind_floating_point_result,
    _bind_integral_result, _bind_text_result;
  destruct (Z.ltb_spec (fields (_handle this)) index);
  try destruct (PQgetvalue (result (_handle this)) (row_arg (_handle this))
                  (col_arg index));
  simpl.

(** No decoder writes to the handle. *)
Lemma decoders_leave_cursor (this : bind_result_t) (index : Z) :
  (forall v n, after (_bind_boolean_result this index v n) = this) /\
  (forall v n, after (_bind_floating_point_result num_get_double this index v n) = this) /\
  (forall v n, after (_bind_integral_result this index v n) = this) /\
  (forall v l, after (_bind_text_result this index v l) = this).
Proof. repeat split; intros; decoder_cases this index; reflexivity. Qed.

Lemma perform_decode (this : bind_result_t) (o : operation double) :
  o <> advance -> perform num_get_double this o = this.
Proof.
  intro Ho. destruct o as [| i v n | i v n | i v n | i v l]; simpl.
  - contradiction.
  - apply (decoders_leave_cursor this i).
  - apply (decoders_leave_cursor this i).
  - apply (decoders_leave_cursor this i).
  - apply (decoders_leave_cursor this i).
Qed.

(** Once iteration has started on a buffer with a row, the row cursor stays
    inside the rows, whatever is called. *)
Lemma perform_iterating (this : bind_result_t) (o : operation double) :
  iterating this -> iterating (perform num_get_double this o).
Proof.
  intros (Ht & Hc).
  destruct o as [| i v n | i v n | i v n | i v l];
    try (rewrite perform_decode by discriminate; split; assumption).
  simpl.
  destruct (Z.lt_ge_cases (count (_handle this)) (totalCount (_handle this) - 1))
    as [Hlt | Hge].
  - destruct (next_impl_move this Ht) as (_ & Hc' & Ht'); [ lia | ].
    unfold iterating. rewrite Hc', Ht'. lia.
  - destruct (next_impl_exhausted this Ht) as (_ & Ha); [ lia | ].
    rewrite Ha. split; assumption.
Qed.

Lemma perform_all_iterating (ops : list (operation double)) :
  forall this, iterating this -> iterating (perform_all num_get_double this ops).
Proof.
  induction ops as [| o ops IH]; intros this H.
  - exact H.
  - simpl. apply IH. apply perform_iterating. exact H.
Qed.

Lemma row_cursor_invariant (get : Z) (res : PGresult) (dbg : bool)
    (ops : list (operation double)) :
  1 <= PQntuples res < 2 ^ 32 ->
  iterating (perform_all num_get_double (fresh get res dbg) (advance :: ops)).
Proof.
  intro H.
  change (perform_all num_get_double (fresh get res dbg) (advance :: ops))
    with (perform_all num_get_double (after (next_impl (fresh get res dbg))) ops).
  apply perform_all_iterating.
  destruct (next_impl_fetch (fresh get res dbg) eq_refl) as (_ & Hc & Ht).
  change (count (_handle (fresh get res dbg))) with 0 in Hc.
  change (result (_handle (fresh get res dbg))) with res in Ht.
  unfold iterating. rewrite Hc, Ht, uint32_small by lia. lia.
Qed.

(** The cached field count, once it holds the buffer's field count, keeps
    it; a cached count other than 0 is never written again. *)
Lemma perform_fields (this : bind_result_t) (o : operation double) :
  result (_handle (perform num_get_double this o)) = result (_handle this) /\
  (fields (_handle this) <> 0 ->
   fields (_handle (perform num_get_double this o)) = fields (_handle this)) /\
  (fields (_handle this) = uint32 (PQnfields (result (_handle this))) ->
   fields (_handle (perform num_get_double this o)) = fields (_handle this)).
Proof.
  destruct o as [| i v n | i v n | i v n | i v l];
    try (rewrite perform_decode by discriminate; auto).
  simpl. split; [ apply next_impl_result | ].
  unfold next_impl.
  destruct (totalCount (_handle this) =? 0);
    [ | destruct (count (_handle this) <? uint32 (totalCount (_handle this) - 1)) ];
    simpl; auto; rewrite fetch_fields_fields; simpl;
    destruct (Z.eqb_spec (fields (_handle this)) 0); split; intros; congruence.
Qed.

Lemma perform_all_fields (ops : list (operation double)) :
  forall this,
    fields (_handle this) <> 0 ->
    fields (_handle (perform_all num_get_double this ops)) = fields (_handle this).
Proof.
  induction ops as [| o ops IH]; intros this H.
  - reflexivity.
  - simpl. destruct (perform_fields this o) as (_ & Hf & _).
    rewrite IH; rewrite (Hf H); auto.
Qed.

(** The text decoder hands out the buffer's own value pointer and length. *)
Lemma text_result_from_buffer (this : bind_result_t) (index : Z)
    (value : option string) (len : Z) :
  index <= fields (_handle this) ->
  ended (_bind_text_result this index value len)
  = Returns (PQgetvalue (result (_handle this)) (row_arg (_handle this)) (col_arg index),
             to_size_t (PQgetlength (result (_handle this)) (row_arg (_handle this))
                          (col_arg index))).
Proof. intro H. decoder_cases this index; try reflexivity; lia. Qed.

(** C3. In each of the four decoders the out-of-range error is thrown exactly
    when [index] is strictly greater than the cached field count; an [index]
    equal to the cached field count passes the check and the error is not
    thrown. *)
Theorem bounds_check_is_strict_greater_than
    (this : bind_result_t) (index : Z)
    (vb : Z) (vd : double) (vi : Z) (vt : option string) (lt : Z) (n : bool) :
  let f := fields (_handle this) in
  (ended (_bind_boolean_result this index vb n) = Throws out_of_range <-> f < index) /\
  (ended (_bind_floating_point_result num_get_double this index vd n)
   = Throws out_of_range <-> f < index) /\
  (ended (_bind_integral_result this index vi n) = Throws out_of_range <-> f < index) /\
  (ended (_bind_text_result this index vt lt) = Throws out_of_range <-> f < index) /\
  raised (ended (_bind_boolean_result this f vb n)) = false /\
  raised (ended (_bind_floating_point_result num_get_double this f vd n)) = false /\
  raised (ended (_bind_integral_result this f vi n)) = false /\
  raised (ended (_bind_text_result this f vt lt)) = false.
Proof.
  intro f. subst f.
  repeat split;
    try (decoder_cases this index; intros; try reflexivity; try discriminate; lia);
    decoder_cases this (fields (_handle this)); try reflexivity; lia.
Qed.

(** C4. For a column index that passes the bounds check, with the row cursor
    and the index in the range of [int] and a value in the buffer for the
    cell at (row cursor, index), each scalar decoder (boolean, floating
    point, integral) returns and sets [is_null] to [true] exactly when the
    buffer's null marker [PQgetisnull] for the cell at (row cursor, index)
    is not 0, whatever the text of the cell is and whatever its extraction
    stores. *)
Theorem is_null_is_buffer_null_marker
    (this : bind_result_t) (index : Z) (text : string)
    (vb : Z) (vd : double) (vi : Z) (n : bool) :
  0 <= count (_handle this) < 2 ^ 31 ->
  0 <= index < 2 ^ 31 ->
  index <= fields (_handle this) ->
  PQgetvalue (result (_handle this)) (count (_handle this)) index = Some text ->
  ended (_bind_boolean_result this index vb n)
  = Returns (fst (extract_schar text vb),
             negb (PQgetisnull (result (_handle this)) (count (_handle this)) index
                   =? 0)) /\
  ended (_bind_floating_point_result num_get_double this index vd n)
  = Returns (fst (extract_double num_get_double text vd),
             negb (PQgetisnull (result (_handle this)) (count (_handle this)) index
                   =? 0)) /\
  ended (_bind_integral_result this index vi n)
  = Returns (fst (extract_long text vi),
             negb (PQgetisnull (result (_handle this)) (count (_handle this)) index
                   =? 0)).
Proof.
  intros Hc Hx Hi Hv.
  unfold _bind_boolean_result, _bind_floating_point_result, _bind_integral_result.
  destruct (Z.ltb_spec (fields (_handle this)) index); [ lia | ].
  unfold row_arg, col_arg.
  rewrite (to_int_small (count (_handle this)) Hc), (to_int_small index Hx), Hv.
  unfold bool_of_int. simpl. auto.
Qed.

Lemma extract_schar_failbit (text : string) (old : Z) :
  snd (extract_schar text old) = true -> fst (extract_schar text old) = old.
Proof.
  unfold extract_schar.
  destruct (sentry text) as [[| c r] |]; simpl; intro H;
    [ reflexivity | discriminate H | reflexivity ].
Qed.

Lemma num_get_long_failbit (field : string) :
  snd (num_get_long field) = true ->
  fst (num_get_long field) = 0 \/
  fst (num_get_long field) = INT64_MAX \/
  fst (num_get_long field) = INT64_MIN.
Proof.
  unfold num_get_long.
  destruct (match field with
            | String "-"%char rest => (true, rest)
            | String "+"%char rest => (false, rest)
            | _ => (false, field)
            end) as [negative digits].
  destruct (read_digits digits None) as [m |]; [ | simpl; auto ].
  destruct (INT64_MAX <? (if negative then - m else m)); [ simpl; auto | ].
  destruct ((if negative then - m else m) <? INT64_MIN); simpl; auto.
  intro H; discriminate H.
Qed.

(** What [num_get_long] stores always fits an [int64_t]. *)
Lemma num_get_long_range (field : string) :
  INT64_MIN <= fst (num_get_long field) <= INT64_MAX.
Proof.
  unfold num_get_long.
  destruct (match field with
            | String "-"%char rest => (true, rest)
            | String "+"%char rest => (false, rest)
            | _ => (false, field)
            end) as [negative digits].
  destruct (read_digits digits None) as [m |];
    [ | simpl; unfold INT64_MIN, INT64_MAX; lia ].
  destruct (Z.ltb_spec INT64_MAX (if negative then - m else m));
    [ simpl; unfold INT64_MIN, INT64_MAX; lia | ].
  destruct (Z.ltb_spec (if negative then - m else m) INT64_MIN); simpl;
    unfold INT64_MIN, INT64_MAX in *; lia.
Qed.

(** C6, as the code has it. [next_impl] is the operation that caches the
    field count: a call that returns [true] stores the buffer's field count
    when the cached count is 0 and keeps the cached count otherwise, a call
    that returns [false] keeps it; no decoder writes to the handle. *)
Theorem field_count_cached_by_next_impl
    (this : bind_result_t) (index : Z)
    (vb : Z) (vd : double) (vi : Z) (vt : option string) (lt : Z) (n : bool) :
  let h := _handle this in
  fields (_handle (after (next_impl this)))
  = match ended (next_impl this) with
    | Returns true =>
        if fields h =? 0 then uint32 (PQnfields (result h)) else fields h
    | _ => fields h
    end /\
  after (_bind_boolean_result this index vb n) = this /\
  after (_bind_floating_point_result num_get_double this index vd n) = this /\
  after (_bind_integral_result this index vi n) = this /\
  after (_bind_text_result this index vt lt) = this.
Proof.
  intro h. subst h. split.
  - unfold next_impl.
    destruct (totalCount (_handle this) =? 0);
      [ | destruct (count (_handle this) <? uint32 (totalCount (_handle this) - 1)) ];
      simpl; try reflexivity; rewrite fetch_fields_fields; reflexivity.
  - destruct (decoders_leave_cursor this index) as (Hb & Hd & Hi & Ht).
    auto.
Qed.

(** C9. For [next_impl] and for each decoder, a run with the debug flag set
    and a run with it unset end the same way (same return value or outputs,
    same exception), leave the same cursor up to the flag itself, and the
    run with the flag unset writes nothing to [std::cerr]. *)
Theorem debug_flag_is_observability_only
    (this : bind_result_t) (index : Z)
    (vb : Z) (vd : double) (vi : Z) (vt : option string) (lt : Z) (n : bool) :
  let on := with_debug this true in
  let off := with_debug this false in
  (ended (next_impl on) = ended (next_impl off) /\
   with_debug (after (next_impl on)) false = after (next_impl off) /\
   cerr (next_impl off) = []) /\
  (ended (_bind_boolean_result on index vb n)
   = ended (_bind_boolean_result off index vb n) /\
   with_debug (after (_bind_boolean_result on index vb n)) false
   = after (_bind_boolean_result off index vb n) /\
   cerr (_bind_boolean_result off index vb n) = []) /\
  (ended (_bind_floating_point_result num_get_double on index vd n)
   = ended (_bind_floating_point_result num_get_double off index vd n) /\
   with_debug (after (_bind_floating_point_result num_get_double on index vd n)) false
   = after (_bind_floating_point_result num_get_double off index vd n) /\
   cerr (_bind_floating_point_result num_get_double off index vd n) = []) /\
  (ended (_bind_integral_result on index vi n)
   = ended (_bind_integral_result off index vi n) /\
   with_debug (after (_bind_integral_result on index vi n)) false
   = after (_bind_integral_result off index vi n) /\
   cerr (_bind_integral_result off index vi n) = []) /\
  (ended (_bind_text_result on index vt lt)
   = ended (_bind_text_result off index vt lt) /\
   with_debug (after (_bind_text_result on index vt lt)) false
   = after (_bind_text_result off index vt lt) /\
   cerr (_bind_text_result off index vt lt) = []).
Proof.
  intros on off. subst on off.
  repeat split;
    unfold next_impl, _bind_boolean_result, _bind_floating_point_result,
      _bind_integral_result, _bind_text_result, with_debug, fetch_fields, row_arg;
    cbn [_handle _handle_get with_handle set_debug set_count set_totalCount
         set_fields result debug count totalCount fields trace];
    repeat match goal with
      | |- context [if ?c then _ else _] => destruct c; simpl
      | |- context [match PQgetvalue ?r ?x ?y with _ => _ end] =>
          destruct (PQgetvalue r x y); simpl
      end;
    reflexivity.
Qed.

End Decoders.

(** *** The cursor on concrete buffers *)

(** The cell arguments are the row cursor and the column index themselves as
    long as these fit an [int]. *)
Lemma cell_args_small (h : prepared_statement_handle_t) (index : Z) :
  0 <= count h < 2 ^ 31 -> 0 <= index < 2 ^ 31 ->
  row_arg h = count h /\ col_arg index = index.
Proof.
  intros Hc Hi. unfold row_arg, col_arg.
  split; apply to_int_small; assumption.
Qed.

(** C1 on a buffer without rows. With no row to move to, [false] is due from
    the first call on; the first three calls of [next_impl] on a fresh cursor over a
    buffer of zero rows all return [true], and the cached total stays 0. *)
Theorem next_impl_on_empty_result_returns_true :
  PQntuples empty_result = 0 /\
  fst (next_n 3 (fresh 4096 empty_result false))
  = [Returns true; Returns true; Returns true] /\
  totalCount (_handle (snd (next_n 3 (fresh 4096 empty_result false)))) = 0.
Proof. repeat split; reflexivity. Qed.

(** C4 witness: the cell [2.5] of the second sample row, which is not NULL,
    while the cell above it in the first row is. *)
Lemma is_null_is_buffer_null_marker_witness :
  0 <= count (_handle (snd (next_n 2 (fresh 4096 sample_result false)))) < 2 ^ 31 /\
  0 <= 1 < 2 ^ 31 /\
  1 <= fields (_handle (snd (next_n 2 (fresh 4096 sample_result false)))) /\
  PQgetvalue sample_result 1 1 = Some "2.5"%string /\
  PQgetisnull sample_result 1 1 = 0 /\
  PQgetisnull sample_result 0 1 = 1 /\
  ended (_bind_boolean_result (snd (next_n 2 (fresh 4096 sample_result false)))
           1 1 true)
  = Returns (50, false) /\
  ended (_bind_floating_point_result sample_num_get_double
           (snd (next_n 2 (fresh 4096 sample_result false))) 1 5 true)
  = Returns (2, false) /\
  ended (_bind_integral_result (snd (next_n 2 (fresh 4096 sample_result false)))
           1 7 true)
  = Returns (2, false).
Proof.
  split; [ vm_compute; split; [ discriminate | reflexivity ] | ].
  split; [ vm_compute; split; [ discriminate | reflexivity ] | ].
  split; [ vm_compute; discriminate | ].
  split; [ reflexivity | ].
  split; [ reflexivity | ].
  split; [ reflexivity | ].
  apply (is_null_is_buffer_null_marker Z sample_num_get_double
           (snd (next_n 2 (fresh 4096 sample_result false))) 1 "2.5"%string
           1 5 7 true).
  - vm_compute; split; [ discriminate | reflexivity ].
  - vm_compute; split; [ discriminate | reflexivity ].
  - vm_compute; discriminate.
  - reflexivity.
Defined.

(** C5 as stated fails: the last cell of the second sample row holds a
    number beyond [int64_t]; the extraction sets failbit and the integral
    decoder leaves [INT64_MAX] in [value], not 0. *)
Lemma parse_failure_value_not_zero :
  ~ (forall (this : bind_result_t) (index : Z) (text : string) (value : Z)
            (is_null : bool),
        index <= fields (_handle this) ->
        PQgetvalue (result (_handle this)) (row_arg (_handle this)) (col_arg index)
        = Some text ->
        snd (extract_long text value) = true ->
        exists b, ended (_bind_integral_result this index value is_null)
                  = Returns (0, b)).
Proof.
  intro H.
  destruct (H (snd (next_n 2 (fresh 4096 sample_result false))) 2
              "99999999999999999999"%string 0 false) as [b Hb].
  - vm_compute; discriminate.
  - reflexivity.
  - reflexivity.
  - vm_compute in Hb. discriminate Hb.
Qed.

(** C6 as stated fails on both counts: a call of [next_impl] on a fresh
    cursor over the sample buffer caches its field count, 3; a decoder called
    on the fresh cursor leaves the cached field count at 0. *)
Lemma field_count_not_cached_by_decode :
  ~ (forall this : bind_result_t,
        fields (_handle (after (next_impl this))) = fields (_handle this)) /\
  ~ (forall (this : bind_result_t) (index value : Z) (is_null : bool),
        fields (_handle this) = 0 ->
        fields (_handle (after (_bind_integral_result this index value is_null)))
        = uint32 (PQnfields (result (_handle this)))).
Proof.
  split; intro H.
  - specialize (H (fresh 4096 sample_result false)). vm_compute in H. discriminate H.
  - specialize (H (fresh 4096 sample_result false) 0 0 false eq_refl).
    vm_compute in H. discriminate H.
Qed.

(** C7 on a NULL cell. The buffer marks the only cell of [null_cell_result]
    as NULL and that of [empty_text_result] as present; the text decoder
    returns the same pointer contents and the same length for both, and has
    no further output. *)
Theorem text_result_hides_null_marker :
  let on_null := after (next_impl (fresh 4096 null_cell_result false)) in
  let on_empty := after (next_impl (fresh 4096 empty_text_result false)) in
  PQgetisnull null_cell_result 0 0 = 1 /\
  PQgetisnull empty_text_result 0 0 = 0 /\
  ended (_bind_text_result on_null 0 None 0) = Returns (Some EmptyString, 0) /\
  ended (_bind_text_result on_empty 0 None 0) = Returns (Some EmptyString, 0).
Proof. repeat split; reflexivity. Qed.

(** C8 on a buffer without rows. After the first call of [next_impl], which
    returns [true], the row cursor and the cached total are both 0: the
    cursor is not inside [0, totalCount). *)
Theorem row_cursor_outside_rows_on_empty_result :
  let this :=
    perform_all sample_num_get_double (fresh 4096 empty_result false) [advance] in
  ended (next_impl (fresh 4096 empty_result false)) = Returns true /\
  count (_handle this) = 0 /\
  totalCount (_handle this) = 0 /\
  ~ (0 <= count (_handle this) < totalCount (_handle this)).
Proof.
  repeat split; try reflexivity.
  vm_compute. intros [_ H]. discriminate H.
Qed.

(** C10. On a buffer with zero rows, from a cursor whose row cursor and
    cached total are 0 (a fresh one in particular), every call of [next_impl]
    returns [true], the row cursor stays at 0 and the cached total stays 0:
    each call finds the cached total at 0, takes the branch that fetches it
    again, and none reaches the branch that returns [false]. *)
Theorem next_impl_zero_rows_always_true (this : bind_result_t) (n : nat) :
  PQntuples (result (_handle this)) = 0 ->
  totalCount (_handle this) = 0 ->
  count (_handle this) = 0 ->
  fst (next_n n this) = repeat (Returns true) n /\
  count (_handle (snd (next_n n this))) = 0 /\
  totalCount (_handle (snd (next_n n this))) = 0.
Proof.
  intros Hres Ht Hc.
  destruct (next_n_zero_rows n this Hres Ht) as (Hl & Hc' & Ht').
  rewrite Hc'. auto.
Qed.

(** C10 witness: five calls on a fresh cursor over the buffer without rows. *)
Lemma next_impl_zero_rows_always_true_witness :
  PQntuples empty_result = 0 /\
  totalCount (_handle (fresh 4096 empty_result true)) = 0 /\
  count (_handle (fresh 4096 empty_result true)) = 0 /\
  fst (next_n 5 (fresh 4096 empty_result true)) = repeat (Returns true) 5 /\
  count (_handle (snd (next_n 5 (fresh 4096 empty_result true)))) = 0 /\
  totalCount (_handle (snd (next_n 5 (fresh 4096 empty_result true)))) = 0.
Proof.
  split; [ reflexivity | ].
  split; [ reflexivity | ].
  split; [ reflexivity | ].
  apply (next_impl_zero_rows_always_true (fresh 4096 empty_result true) 5);
    reflexivity.
Defined.

(** *** The sample buffer, call by call *)

(** Two rows: two calls return [true], the later ones [false]. *)
Example sample_rows :
  fst (next_n 4 (fresh 4096 sample_result false))
  = [Returns true; Returns true; Returns false; Returns false].
Proof. reflexivity. Qed.

(** First row: the boolean column reads the character [t], the integral
    column reads 42, and the NULL cell leaves [value] as passed. *)
Example sample_first_row :
  let this := snd (next_n 1 (fresh 4096 sample_result false)) in
  ended (_bind_boolean_result this 0 0 false) = Returns (116, false) /\
  ended (_bind_integral_result this 2 0 false) = Returns (42, false) /\
  ended (_bind_integral_result this 1 7 false) = Returns (7, true) /\
  ended (_bind_text_result this 2 None 0) = Returns (Some "42"%string, 2).
Proof. repeat split; reflexivity. Qed.

(** At [index] equal to the field count the check passes; libpq has no such
    column and answers with a null pointer, which the text decoder stores and
    from which the scalar decoders build a [std::string].  One past it, the
    error is thrown. *)
Example sample_at_field_count :
  let this := snd (next_n 1 (fresh 4096 sample_result false)) in
  fields (_handle this) = 3 /\
  ended (_bind_text_result this 3 None 0) = Returns (None, 0) /\
  ended (_bind_integral_result this 3 0 false) = Undefined /\
  ended (_bind_integral_result this 4 0 false) = Throws out_of_range.
Proof. repeat split; reflexivity. Qed.

(** The debug traces of one call each. *)
Example sample_traces :
  cerr (next_impl (fresh 4096 sample_result true))
  = [ {| message := "PostgreSQL debug: accessing next row of handle at ";
         operand := 4096 |} ] /\
  cerr (_bind_text_result (fresh 4096 sample_result true) 0 None 0)
  = [ {| message := "PostgreSQL debug: binding text result at index: ";
         operand := 0 |} ].
Proof. split; reflexivity. Qed.

(* ================================================================== *)
(** ** Part V. Further properties of the exception classes             *)
(* ================================================================== *)

Section MoreExceptionFacts.

Import Exceptions.

Lemma spec_ancestor_trans (a b k : kind) :
  spec_ancestor a k -> spec_ancestor b a -> spec_ancestor b k.
Proof.
  intro H. induction H as [k | a p c Hin _ IH]; intro Hb.
  - exact Hb.
  - apply anc_up with (p := p); [ exact Hin | apply IH; exact Hb ].
Qed.

(** X1. Catching by base class is a partial order on the classes: a handler
    takes its own class, a handler for a base of a base takes the derived
    class, and two distinct classes never take each other. *)
Theorem catchable_as_partial_order :
  (forall k, catchable_as k k = true) /\
  (forall k a b,
      catchable_as k a = true -> catchable_as a b = true ->
      catchable_as k b = true) /\
  (forall k a,
      catchable_as k a = true -> catchable_as a k = true -> k = a).
Proof.
  repeat split.
  - intro k. destruct k; reflexivity.
  - intros k a b Hka Hab.
    apply catchable_as_spec_ancestor.
    apply spec_ancestor_trans with (a := a);
      apply catchable_as_spec_ancestor; assumption.
  - intros k a. destruct k; destruct a; vm_compute; intros H1 H2;
      first [ reflexivity | discriminate H1 | discriminate H2 ].
Qed.

(** X2. Every class other than [failure] lies under exactly one of
    [broken_connection], [sql_error] and [in_doubt_error]; [failure] lies
    under none.  As the header comment says, [too_many_connections] is a
    [broken_connection] and not an [insufficient_resources], and nothing
    derives from [in_doubt_error]. *)
Theorem top_level_branches_are_disjoint :
  (forall k,
      (k = failure /\ branch_of k = (false, false, false)) \/
      (k <> failure /\
       (branch_of k = (true, false, false) \/
        branch_of k = (false, true, false) \/
        branch_of k = (false, false, true)))) /\
  catchable_as too_many_connections broken_connection = true /\
  catchable_as too_many_connections insufficient_resources = false /\
  (forall k, catchable_as k in_doubt_error = true <-> k = in_doubt_error).
Proof.
  repeat split.
  - intro k. destruct k;
      first
        [ left; split; reflexivity
        | right; split; [ discriminate | ];
          first [ left; reflexivity
                | right; left; reflexivity
                | right; right; reflexivity ] ].
  - destruct k; vm_compute; intro H;
      first [ reflexivity | discriminate H ].
  - intro H. subst k. reflexivity.
Qed.

(** X3. The constructor taking message and query exists exactly for the
    classes derived from [sql_error]; whatever the class, it builds the same
    [sql_error] subobject as [sql_error(err, Q)] itself, and so does the
    constructor taking the message alone with [sql_error(err)].  The classes
    derived from [syntax_error] have no constructor that takes a position:
    their [error_position] is always -1. *)
Theorem derived_constructors_forward (k : kind) (err Q : string) :
  match construct_Q k err Q with
  | Some e =>
      catchable_as k sql_error = true /\
      dynamic_type e = k /\
      sql_error_part (state e) = Some (sql_error_ctor_Q err Q) /\
      error_position_of e
      = (if catchable_as k syntax_error then Some (-1)%Z else None)
  | None => catchable_as k sql_error = false
  end /\
  sql_error_part (state (construct k err))
  = (if catchable_as k sql_error then Some (sql_error_ctor err) else None) /\
  error_position_of (construct k err)
  = (if catchable_as k syntax_error then Some (-1)%Z else None).
Proof. destruct k; repeat split; reflexivity. Qed.

End MoreExceptionFacts.

(* ================================================================== *)
(** ** Part VI. Further properties of the result cursor                *)
(* ================================================================== *)

(** *** What [next_impl] leaves alone *)

Lemma next_impl_debug_address (this : bind_result_t) :
  debug (_handle (after (next_impl this))) = debug (_handle this) /\
  _handle_get (after (next_impl this)) = _handle_get this.
Proof.
  unfold next_impl.
  destruct (totalCount (_handle this) =? 0);
    [ | destruct (count (_handle this) <? uint32 (totalCount (_handle this) - 1)) ];
    simpl; auto;
    match goal with
    | |- debug (fetch_fields ?h) = _ /\ _ =>
        destruct (fetch_fields_count h) as (_ & _ & _ & Hd); rewrite Hd; auto
    end.
Qed.

(** A cached field count that equals the buffer's is kept by [next_impl]. *)
Lemma next_impl_fields_pinned (this : bind_result_t) :
  fields (_handle this) = uint32 (PQnfields (result (_handle this))) ->
  fields (_handle (after (next_impl this)))
  = uint32 (PQnfields (result (_handle this))).
Proof.
  intro H. unfold next_impl.
  destruct (totalCount (_handle this) =? 0);
    [ | destruct (count (_handle this) <? uint32 (totalCount (_handle this) - 1)) ];
    simpl; try exact H; rewrite fetch_fields_fields; simpl;
    destruct (fields (_handle this) =? 0); congruence.
Qed.

(** The first call on a fresh cursor caches the buffer's field count. *)
Lemma next_impl_fresh_fields (get : Z) (res : PGresult) (dbg : bool) :
  fields (_handle (after (next_impl (fresh get res dbg))))
  = uint32 (PQnfields res) /\
  result (_handle (after (next_impl (fresh get res dbg)))) = res.
Proof. split; reflexivity. Qed.

Lemma next_n_pinned (k : nat) :
  forall this,
    fields (_handle this) = uint32 (PQnfields (result (_handle this))) ->
    fields (_handle (snd (next_n k this)))
    = uint32 (PQnfields (result (_handle this))) /\
    result (_handle (snd (next_n k this))) = result (_handle this).
Proof.
  induction k as [| k IH]; intros this H.
  - simpl. auto.
  - rewrite next_n_S. cbn [snd].
    destruct (IH (after (next_impl this))) as (Hf & Hr).
    + rewrite next_impl_result. apply next_impl_fields_pinned. exact H.
    + rewrite Hf, Hr, next_impl_result. auto.
Qed.

(** The state of a fresh cursor after [k >= 1] calls of [next_impl] on a
    buffer with [N >= 1] rows. *)
Lemma next_n_from_fresh (get : Z) (res : PGresult) (dbg : bool) (N k : nat) :
  PQntuples res = Z.of_nat N ->
  (1 <= N)%nat ->
  Z.of_nat N < 2 ^ 32 ->
  (1 <= k)%nat ->
  fst (next_n k (fresh get res dbg))
  = repeat (Returns true) (Nat.min k N) ++ repeat (Returns false) (k - N) /\
  count (_handle (snd (next_n k (fresh get res dbg)))) = Z.of_nat (Nat.min k N) - 1 /\
  totalCount (_handle (snd (next_n k (fresh get res dbg)))) = Z.of_nat N.
Proof.
  intros HN H1 H2 Hk.
  destruct (next_impl_fetch (fresh get res dbg) eq_refl) as (He & Hc & Ht).
  change (count (_handle (fresh get res dbg))) with 0 in Hc.
  change (result (_handle (fresh get res dbg))) with res in Ht.
  assert (Ht' : totalCount (_handle (after (next_impl (fresh get res dbg))))
                = Z.of_nat N).
  { rewrite Ht, HN. apply uint32_small. lia. }
  clear Ht.
  destruct (Nat.le_gt_cases k N) as [Hle | Hgt].
  - (* all [k] calls find a row *)
    destruct k as [| j]; [ lia | ].
    destruct (next_n_moving j (after (next_impl (fresh get res dbg))))
      as (Hl & Hcn & Htn); [ lia | lia | lia | ].
    rewrite next_n_S. cbn [fst snd].
    rewrite He, Hl, Hcn, Htn, Hc, Ht'.
    replace (Nat.min (S j) N) with (S j) by lia.
    replace (S j - N)%nat with 0%nat by lia.
    simpl repeat. rewrite app_nil_r.
    repeat split; lia.
  - (* [N] calls find a row, the others do not *)
    destruct N as [| n]; [ lia | ].
    destruct (next_n_moving n (after (next_impl (fresh get res dbg))))
      as (Hl & Hcn & Htn); [ lia | lia | lia | ].
    pose (j := (k - S n)%nat).
    assert (Ek : k = (S n + j)%nat) by (unfold j; lia).
    clearbody j. subst k.
    rewrite next_n_add, next_n_S. cbn [fst snd].
    rewrite (next_n_exhausted j
               (snd (next_n n (after (next_impl (fresh get res dbg))))));
      [ | rewrite Htn; lia | rewrite Hcn, Htn; lia ].
    cbn [fst snd]. rewrite He, Hl, Hcn, Htn, Hc, Ht'.
    replace (Nat.min (S n + j) (S n)) with (S n) by lia.
    replace (S n + j - S n)%nat with j by lia.
    repeat split; lia.
Qed.

(** X4. On a buffer with [N >= 1] rows, [k >= 1] calls of [next_impl] on a
    fresh cursor return [true] for the first [min k N] and [false] for the
    rest, and leave the row cursor on row [min k N - 1]: the first call
    stays on row 0, each later successful call moves one row down, and the
    cursor stops on the last row. *)
Theorem next_impl_walks_the_rows
    (get : Z) (res : PGresult) (dbg : bool) (N k : nat) :
  PQntuples res = Z.of_nat N ->
  (1 <= N)%nat ->
  Z.of_nat N < 2 ^ 32 ->
  (1 <= k)%nat ->
  fst (next_n k (fresh get res dbg))
  = repeat (Returns true) (Nat.min k N) ++ repeat (Returns false) (k - N) /\
  count (_handle (snd (next_n k (fresh get res dbg)))) = Z.of_nat (Nat.min k N) - 1.
Proof.
  intros HN H1 H2 Hk.
  destruct (next_n_from_fresh get res dbg N k HN H1 H2 Hk) as (Hl & Hc & _).
  split; assumption.
Qed.

Lemma next_impl_walks_the_rows_witness :
  PQntuples sample_result = Z.of_nat 2 /\
  (1 <= 2)%nat /\
  Z.of_nat 2 < 2 ^ 32 /\
  (1 <= 5)%nat /\
  fst (next_n 5 (fresh 4096 sample_result false))
  = repeat (Returns true) (Nat.min 5 2) ++ repeat (Returns false) (5 - 2) /\
  count (_handle (snd (next_n 5 (fresh 4096 sample_result false))))
  = Z.of_nat (Nat.min 5 2) - 1.
Proof.
  split; [ reflexivity | ].
  split; [ lia | ].
  split; [ reflexivity | ].
  split; [ lia | ].
  apply (next_impl_walks_the_rows 4096 sample_result false 2 5);
    [ reflexivity | lia | reflexivity | lia ].
Defined.

(** *** Arbitrary sequences of calls *)

Section Sequences.

Variable double : Type.
Variable num_get_double : string -> double * bool.

Lemma perform_total (this : bind_result_t) (o : operation double) :
  iterating this ->
  totalCount (_handle (perform num_get_double this o)) = totalCount (_handle this).
Proof.
  intros (Ht & Hc).
  destruct o as [| i v n | i v n | i v n | i v l];
    try (rewrite perform_decode by discriminate; reflexivity).
  simpl.
  destruct (Z.lt_ge_cases (count (_handle this)) (totalCount (_handle this) - 1))
    as [Hlt | Hge].
  - destruct (next_impl_move this Ht) as (_ & _ & Ht'); [ lia | exact Ht' ].
  - destruct (next_impl_exhausted this Ht) as (_ & Ha); [ lia | ].
    rewrite Ha. reflexivity.
Qed.

Lemma perform_all_total (ops : list (operation double)) :
  forall this,
    iterating this ->
    iterating (perform_all num_get_double this ops) /\
    totalCount (_handle (perform_all num_get_double this ops))
    = totalCount (_handle this).
Proof.
  induction ops as [| o ops IH]; intros this H.
  - split; [ exact H | reflexivity ].
  - simpl.
    destruct (IH (perform num_get_double this o)) as (Hi & Ht).
    + apply perform_iterating. exact H.
    + split; [ exact Hi | ]. rewrite Ht. apply perform_total. exact H.
Qed.

(** X5. On a buffer with at least one row, after the first call of
    [next_impl] on a fresh cursor and whatever calls follow, the cached total
    is the buffer's row count and the row the decoders pass to libpq is the
    row cursor itself, a row of the buffer. *)
Theorem cursor_addresses_a_row
    (get : Z) (res : PGresult) (dbg : bool) (ops : list (operation double)) :
  1 <= PQntuples res < 2 ^ 31 ->
  totalCount (_handle (perform_all num_get_double (fresh get res dbg) (advance :: ops)))
  = PQntuples res /\
  row_arg (_handle (perform_all num_get_double (fresh get res dbg) (advance :: ops)))
  = count (_handle (perform_all num_get_double (fresh get res dbg) (advance :: ops))) /\
  0 <= row_arg (_handle (perform_all num_get_double (fresh get res dbg) (advance :: ops)))
    < PQntuples res.
Proof.
  intro H.
  change (perform_all num_get_double (fresh get res dbg) (advance :: ops))
    with (perform_all num_get_double (after (next_impl (fresh get res dbg))) ops).
  destruct (next_impl_fetch (fresh get res dbg) eq_refl) as (_ & Hc & Ht).
  change (count (_handle (fresh get res dbg))) with 0 in Hc.
  change (result (_handle (fresh get res dbg))) with res in Ht.
  rewrite (uint32_small (PQntuples res)) in Ht by lia.
  destruct (perform_all_total ops (after (next_impl (fresh get res dbg))))
    as ((_ & Hrow) & Htot).
  { unfold iterating. rewrite Hc, Ht. lia. }
  rewrite Htot, Ht in *.
  assert (Hr : row_arg (_handle (perform_all num_get_double
                                   (after (next_impl (fresh get res dbg))) ops))
               = count (_handle (perform_all num_get_double
                                   (after (next_impl (fresh get res dbg))) ops))).
  { unfold row_arg. apply to_int_small. lia. }
  rewrite Hr. repeat split; lia.
Qed.

Lemma perform_all_pinned (ops : list (operation double)) :
  forall this,
    fields (_handle this) = uint32 (PQnfields (result (_handle this))) ->
    fields (_handle (perform_all num_get_double this ops)) = fields (_handle this) /\
    result (_handle (perform_all num_get_double this ops)) = result (_handle this).
Proof.
  induction ops as [| o ops IH]; intros this H.
  - split; reflexivity.
  - simpl.
    destruct (perform_fields double num_get_double this o) as (Hr & _ & Hf).
    destruct (IH (perform num_get_double this o)) as (Hf' & Hr').
    + rewrite Hr, (Hf H). exact H.
    + rewrite Hf', Hr', Hr, (Hf H). split; reflexivity.
Qed.

(** X6. After the first call of [next_impl] on a fresh cursor the cached
    field count is the buffer's field count (as a 32-bit unsigned number),
    and no later call of any operation changes it or replaces the buffer;
    this holds for every buffer, also one without rows or columns. *)
Theorem field_count_fixed_by_first_advance
    (get : Z) (res : PGresult) (dbg : bool) (ops : list (operation double)) :
  fields (_handle (perform_all num_get_double (fresh get res dbg) (advance :: ops)))
  = uint32 (PQnfields res) /\
  result (_handle (perform_all num_get_double (fresh get res dbg) (advance :: ops)))
  = res.
Proof.
  change (perform_all num_get_double (fresh get res dbg) (advance :: ops))
    with (perform_all num_get_double (after (next_impl (fresh get res dbg))) ops).
  destruct (next_impl_fresh_fields get res dbg) as (Hf & Hr).
  destruct (perform_all_pinned ops (after (next_impl (fresh get res dbg))))
    as (Hf' & Hr').
  - rewrite Hf, Hr. reflexivity.
  - rewrite Hf', Hr', Hf, Hr. split; reflexivity.
Qed.

(** X7. The decoders never move the cursor: the cursor after any sequence of
    calls is the cursor after its calls of [next_impl] alone, however the
    decode calls in between are placed, whatever their arguments and however
    they end. *)
Theorem cursor_depends_on_advances_only
    (this : bind_result_t) (ops : list (operation double)) :
  perform_all num_get_double this ops = snd (next_n (advances ops) this).
Proof.
  revert this. induction ops as [| o ops IH]; intro this.
  - reflexivity.
  - simpl. rewrite IH.
    destruct o as [| i v n | i v n | i v n | i v l];
      try (rewrite perform_decode by discriminate; reflexivity).
    unfold advances. simpl filter. simpl List.length.
    rewrite next_n_S. reflexivity.
Qed.

(** X8. No sequence of calls replaces the result buffer, switches the debug
    flag or changes the address the cursor holds for its handle. *)
Theorem operations_keep_buffer_flag_and_address
    (this : bind_result_t) (ops : list (operation double)) :
  result (_handle (perform_all num_get_double this ops)) = result (_handle this) /\
  debug (_handle (perform_all num_get_double this ops)) = debug (_handle this) /\
  _handle_get (perform_all num_get_double this ops) = _handle_get this.
Proof.
  revert this. induction ops as [| o ops IH]; intro this.
  - repeat split.
  - simpl. destruct (IH (perform num_get_double this o)) as (Hr & Hd & Hg).
    rewrite Hr, Hd, Hg.
    destruct o as [| i v n | i v n | i v n | i v l];
      try (rewrite perform_decode by discriminate; repeat split).
    simpl. destruct (next_impl_debug_address this) as (Hd' & Hg').
    rewrite next_impl_result, Hd', Hg'. repeat split.
Qed.

End Sequences.

Lemma cursor_addresses_a_row_witness :
  1 <= PQntuples sample_result < 2 ^ 31 /\
  totalCount (_handle (perform_all sample_num_get_double (fresh 4096 sample_result true)
                         [advance; decode_text 0 None 0; advance; advance;
                          decode_integral 7 0 false]))
  = PQntuples sample_result /\
  row_arg (_handle (perform_all sample_num_get_double (fresh 4096 sample_result true)
                      [advance; decode_text 0 None 0; advance; advance;
                       decode_integral 7 0 false]))
  = count (_handle (perform_all sample_num_get_double (fresh 4096 sample_result true)
                      [advance; decode_text 0 None 0; advance; advance;
                       decode_integral 7 0 false])) /\
  0 <= row_arg (_handle (perform_all sample_num_get_double
                           (fresh 4096 sample_result true)
                           [advance; decode_text 0 None 0; advance; advance;
                            decode_integral 7 0 false]))
    < PQntuples sample_result.
Proof.
  split; [ vm_compute; split; [ discriminate | reflexivity ] | ].
  apply (cursor_addresses_a_row Z sample_num_get_double 4096 sample_result true
           [decode_text 0 None 0; advance; advance; decode_integral 7 0 false]).
  vm_compute; split; [ discriminate | reflexivity ].
Defined.

(** *** Reading numerals *)

Lemma digit_of_digit_char (d : Z) :
  0 <= d <= 9 -> digit_of (digit_char d) = Some d.
Proof.
  intro H.
  assert (E : d = 0 \/ d = 1 \/ d = 2 \/ d = 3 \/ d = 4 \/
              d = 5 \/ d = 6 \/ d = 7 \/ d = 8 \/ d = 9) by lia.
  repeat (destruct E as [E | E]; [ subst d; reflexivity | ]).
  subst d; reflexivity.
Qed.

Lemma decimal_digits_S (f : nat) (n : Z) (tail : string) :
  decimal_digits (S f) n tail
  = if n <? 10 then String (digit_char (n mod 10)) tail
    else decimal_digits f (n / 10) (String (digit_char (n mod 10)) tail).
Proof. reflexivity. Qed.

Lemma read_digits_digit (d : Z) (tail : string) (acc : option Z) :
  0 <= d <= 9 ->
  read_digits (String (digit_char d) tail) acc
  = read_digits tail (Some (10 * match acc with Some a => a | None => 0 end + d)).
Proof. intro H. cbn [read_digits]. rewrite digit_of_digit_char by exact H. reflexivity. Qed.

(** Reading back the digits written for [n]: they extend the number read so
    far by [n]. *)
Lemma read_digits_decimal_digits (f : nat) :
  forall (n : Z) (tail : string) (acc : option Z),
    0 <= n < 10 ^ Z.of_nat (S f) ->
    exists p,
      read_digits (decimal_digits (S f) n tail) acc
      = read_digits tail
          (Some (match acc with Some a => a | None => 0 end * p + n)).
Proof.
  induction f as [| f IH]; intros n tail acc H.
  - change (10 ^ Z.of_nat 1) with 10 in H.
    rewrite decimal_digits_S.
    destruct (Z.ltb_spec n 10) as [_ | E]; [ | lia ].
    rewrite read_digits_digit by (pose proof (Z.mod_pos_bound n 10); lia).
    exists 10. rewrite (Z.mod_small n 10) by lia.
    f_equal. f_equal. lia.
  - rewrite decimal_digits_S.
    assert (Hm : 0 <= n mod 10 < 10) by (apply Z.mod_pos_bound; lia).
    destruct (Z.ltb_spec n 10) as [Hlt | Hge].
    + rewrite read_digits_digit by lia.
      exists 10. rewrite (Z.mod_small n 10) by lia.
      f_equal. f_equal. lia.
    + assert (Hq : 0 <= n / 10 < 10 ^ Z.of_nat (S f)).
      { split; [ apply Z.div_pos; lia | ].
        apply Z.div_lt_upper_bound; [ lia | ].
        rewrite (Nat2Z.inj_succ (S f)), Z.pow_succ_r in H by lia. lia. }
      destruct (IH (n / 10) (String (digit_char (n mod 10)) tail) acc Hq) as [p Hp].
      rewrite Hp, read_digits_digit by lia.
      exists (10 * p). f_equal. f_equal.
      pose proof (Z.div_mod n 10 ltac:(lia)) as Hdm. lia.
Qed.

Lemma decimal_digits_head (f : nat) :
  forall (n : Z) (tail : string),
    exists d rest,
      0 <= d <= 9 /\ decimal_digits (S f) n tail = String (digit_char d) rest.
Proof.
  induction f as [| f IH]; intros n tail; rewrite decimal_digits_S.
  - exists (n mod 10), tail.
    split; [ pose proof (Z.mod_pos_bound n 10); lia | ].
    destruct (n <? 10); reflexivity.
  - destruct (n <? 10).
    + exists (n mod 10), tail.
      split; [ pose proof (Z.mod_pos_bound n 10); lia | reflexivity ].
    + apply IH.
Qed.

(** A field that starts with a digit: no sign is taken off, no white space
    is skipped. *)
Lemma num_get_long_digit_head (d : Z) (rest : string) :
  0 <= d <= 9 ->
  sentry (String (digit_char d) rest) = Some (String (digit_char d) rest) /\
  num_get_long (String (digit_char d) rest)
  = match read_digits (String (digit_char d) rest) None with
    | None => (0, true)
    | Some n =>
        if INT64_MAX <? n then (INT64_MAX, true)
        else if n <? INT64_MIN then (INT64_MIN, true)
        else (n, false)
    end.
Proof.
  intro H.
  assert (E : d = 0 \/ d = 1 \/ d = 2 \/ d = 3 \/ d = 4 \/
              d = 5 \/ d = 6 \/ d = 7 \/ d = 8 \/ d = 9) by lia.
  repeat (destruct E as [E | E]; [ subst d; split; reflexivity | ]).
  subst d; split; reflexivity.
Qed.

Lemma num_get_long_minus (rest : string) :
  sentry (String "-"%char rest) = Some (String "-"%char rest) /\
  num_get_long (String "-"%char rest)
  = match read_digits rest None with
    | None => (0, true)
    | Some n =>
        if INT64_MAX <? - n then (INT64_MAX, true)
        else if - n <? INT64_MIN then (INT64_MIN, true)
        else (- n, false)
    end.
Proof. split; reflexivity. Qed.

(** Extracting a [long] from the decimal numeral of [z] stores [z] and does
    not set failbit. *)
Lemma extract_long_decimal_text (z old : Z) :
  INT64_MIN <= z <= INT64_MAX ->
  extract_long (decimal_text z) old = (z, false).
Proof.
  unfold INT64_MIN, INT64_MAX. intro H.
  assert (P : 10 ^ Z.of_nat 20 = 100000000000000000000) by reflexivity.
  unfold extract_long, decimal_text.
  destruct (Z.ltb_spec z 0) as [Hneg | Hpos].
  - destruct (num_get_long_minus (decimal_digits 20 (- z) EmptyString)) as (Hs & Hn).
    rewrite Hs, Hn.
    destruct (read_digits_decimal_digits 19 (- z) EmptyString None) as [p Hp];
      [ rewrite P; lia | ].
    rewrite Hp. cbn [read_digits].
    replace (0 * p + - z) with (- z) by lia.
    replace (- - z) with z by lia.
    unfold INT64_MIN, INT64_MAX.
    destruct (Z.ltb_spec (2 ^ 63 - 1) z); [ lia | ].
    destruct (Z.ltb_spec z (- 2 ^ 63)); [ lia | reflexivity ].
  - destruct (decimal_digits_head 19 z EmptyString) as (d & rest & Hd & E).
    destruct (num_get_long_digit_head d rest Hd) as (Hs & Hn).
    rewrite E, Hs, Hn, <- E.
    destruct (read_digits_decimal_digits 19 z EmptyString None) as [p Hp];
      [ rewrite P; lia | ].
    rewrite Hp. cbn [read_digits].
    replace (0 * p + z) with z by lia.
    unfold INT64_MIN, INT64_MAX.
    destruct (Z.ltb_spec (2 ^ 63 - 1) z); [ lia | ].
    destruct (Z.ltb_spec z (- 2 ^ 63)); [ lia | reflexivity ].
Qed.

(** X9. For every [z] that fits an [int64_t], a cell whose text is the
    decimal numeral of [z] decodes to [z]: when [index] passes the bounds
    check, the integral decoder returns [z] as [value], whatever [value] held
    before, with the buffer's null marker as [is_null]. *)
Theorem integral_result_of_decimal_text
    (this : bind_result_t) (index z value : Z) (is_null : bool) :
  INT64_MIN <= z <= INT64_MAX ->
  index <= fields (_handle this) ->
  PQgetvalue (result (_handle this)) (row_arg (_handle this)) (col_arg index)
  = Some (decimal_text z) ->
  ended (_bind_integral_result this index value is_null)
  = Returns (z, bool_of_int (PQgetisnull (result (_handle this))
                               (row_arg (_handle this)) (col_arg index))).
Proof.
  intros Hz Hi Hv. unfold _bind_integral_result.
  destruct (Z.ltb_spec (fields (_handle this)) index); [ lia | ].
  rewrite Hv, (extract_long_decimal_text z value Hz). reflexivity.
Qed.

Lemma integral_result_of_decimal_text_witness :
  INT64_MIN <= 42 <= INT64_MAX /\
  2 <= fields (_handle (snd (next_n 1 (fresh 4096 sample_result false)))) /\
  PQgetvalue sample_result 0 2 = Some (decimal_text 42) /\
  ended (_bind_integral_result (snd (next_n 1 (fresh 4096 sample_result false)))
           2 7 true)
  = Returns (42, false).
Proof.
  split; [ vm_compute; split; discriminate | ].
  split; [ vm_compute; discriminate | ].
  split; [ reflexivity | ].
  apply (integral_result_of_decimal_text
           (snd (next_n 1 (fresh 4096 sample_result false))) 2 42 7 true).
  - vm_compute; split; discriminate.
  - vm_compute; discriminate.
  - reflexivity.
Defined.

(** X10. The boolean decoder stores the character code of the first
    character of the cell text that is not white space, not a truth value:
    when [index] passes the bounds check and the text has such a character
    [c], [value] is [c] as a [signed char], which is not 0 unless [c] is the
    NUL character. *)
Theorem boolean_result_is_a_character_code
    (this : bind_result_t) (index : Z) (text : string) (c : ascii) (rest : string)
    (value : Z) (is_null : bool) :
  index <= fields (_handle this) ->
  PQgetvalue (result (_handle this)) (row_arg (_handle this)) (col_arg index)
  = Some text ->
  skipws text = String c rest ->
  ended (_bind_boolean_result this index value is_null)
  = Returns (schar_of_ascii c,
             bool_of_int (PQgetisnull (result (_handle this))
                            (row_arg (_handle this)) (col_arg index))) /\
  (nat_of_ascii c <> 0%nat -> schar_of_ascii c <> 0).
Proof.
  intros Hi Hv Hs. split.
  - unfold _bind_boolean_result.
    destruct (Z.ltb_spec (fields (_handle this)) index); [ lia | ].
    rewrite Hv. unfold extract_schar, sentry. rewrite Hs. reflexivity.
  - intro Hc. unfold schar_of_ascii.
    pose proof (nat_ascii_bounded c) as Hb.
    destruct (Z.ltb_spec (Z.of_nat (nat_of_ascii c)) 128); lia.
Qed.

(** The cell [f] of the second sample row: [value] becomes 102. *)
Lemma boolean_result_is_a_character_code_witness :
  0 <= fields (_handle (snd (next_n 2 (fresh 4096 sample_result false)))) /\
  PQgetvalue sample_result 1 0 = Some "f"%string /\
  skipws "f" = String "f"%char EmptyString /\
  ended (_bind_boolean_result (snd (next_n 2 (fresh 4096 sample_result false)))
           0 0 true)
  = Returns (102, false) /\
  (nat_of_ascii "f"%char <> 0%nat -> schar_of_ascii "f"%char <> 0).
Proof.
  split; [ vm_compute; discriminate | ].
  split; [ reflexivity | ].
  split; [ reflexivity | ].
  apply (boolean_result_is_a_character_code
           (snd (next_n 2 (fresh 4096 sample_result false))) 0 "f"%string
           "f"%char EmptyString 0 true).
  - vm_compute; discriminate.
  - reflexivity.
  - reflexivity.
Defined.

(** *** The cursor over a libpq buffer *)

Lemma next_n_fresh_fields (get : Z) (res : PGresult) (dbg : bool) (k : nat) :
  (1 <= k)%nat ->
  fields (_handle (snd (next_n k (fresh get res dbg)))) = uint32 (PQnfields res) /\
  result (_handle (snd (next_n k (fresh get res dbg)))) = res.
Proof.
  intro Hk. destruct k as [| j]; [ lia | ].
  rewrite next_n_S. cbn [snd].
  destruct (next_impl_fresh_fields get res dbg) as (Hf & Hr).
  destruct (next_n_pinned j (after (next_impl (fresh get res dbg)))) as (Hf' & Hr').
  - rewrite Hf, Hr. reflexivity.
  - rewrite Hf', Hr', Hr. split; reflexivity.
Qed.

Lemma pg_cell_inside (F : Z) (tuples : pg_table) (r c : Z)
    (row : list (option string)) (cell : option string) :
  0 <= r -> 0 <= c < F ->
  nth_error tuples (Z.to_nat r) = Some row ->
  nth_error row (Z.to_nat c) = Some cell ->
  pg_cell F tuples r c = Some cell.
Proof.
  intros Hr Hc Hrow Hcell. unfold pg_cell.
  destruct (Z.leb_spec 0 r); [ | lia ].
  destruct (Z.leb_spec 0 c); [ | lia ].
  destruct (Z.ltb_spec c F); [ | lia ].
  simpl. rewrite Hrow. exact Hcell.
Qed.

Lemma pg_cell_outside (F : Z) (tuples : pg_table) (r c : Z) :
  F <= c \/ tuples = [] -> pg_cell F tuples r c = None.
Proof.
  intros [H | H]; unfold pg_cell.
  - destruct (Z.ltb_spec c F); [ lia | ].
    rewrite andb_false_r. reflexivity.
  - subst tuples.
    destruct ((0 <=? r) && (0 <=? c) && (c <? F))%bool; [ | reflexivity ].
    destruct (Z.to_nat r); reflexivity.
Qed.

Section LibpqBuffers.

Variable double : Type.
Variable num_get_double : string -> double * bool.

(** X11. On a libpq buffer, after [k >= 1] calls of [next_impl] on a fresh
    cursor, the decoders called with the index of a column read the cell of
    that column in row [min k N - 1], the row the cursor is on: the text
    decoder returns the text of the cell and its length, the scalar decoders
    return what the extraction makes of that text, and [is_null] tells
    whether the cell is SQL NULL. *)
Theorem decoders_read_the_current_cell
    (get : Z) (dbg : bool) (F : Z) (tuples : pg_table) (k : nat) (index : Z)
    (row : list (option string)) (cell : option string)
    (vb : Z) (vd : double) (vi : Z) (vt : option string) (lt : Z) (n : bool) :
  (1 <= k)%nat ->
  0 <= F < 2 ^ 31 ->
  Z.of_nat (List.length tuples) < 2 ^ 31 ->
  0 <= index < F ->
  nth_error tuples (Nat.min k (List.length tuples) - 1) = Some row ->
  nth_error row (Z.to_nat index) = Some cell ->
  ended (_bind_text_result (snd (next_n k (fresh get (make_result F tuples) dbg)))
           index vt lt)
  = Returns (Some (cell_text cell),
             to_size_t (Z.of_nat (String.length (cell_text cell)))) /\
  ended (_bind_boolean_result (snd (next_n k (fresh get (make_result F tuples) dbg)))
           index vb n)
  = Returns (fst (extract_schar (cell_text cell) vb), cell_is_null cell) /\
  ended (_bind_floating_point_result num_get_double
           (snd (next_n k (fresh get (make_result F tuples) dbg))) index vd n)
  = Returns (fst (extract_double num_get_double (cell_text cell) vd),
             cell_is_null cell) /\
  ended (_bind_integral_result (snd (next_n k (fresh get (make_result F tuples) dbg)))
           index vi n)
  = Returns (fst (extract_long (cell_text cell) vi), cell_is_null cell).
Proof.
  intros Hk HF HN Hi Hrow Hcell.
  assert (HN1 : (1 <= List.length tuples)%nat).
  { destruct tuples as [| t ts]; [ | simpl; lia ].
    destruct (Nat.min k (@List.length (list (option string)) []) - 1)%nat;
      discriminate Hrow. }
  destruct (next_n_from_fresh get (make_result F tuples) dbg
              (List.length tuples) k eq_refl HN1 ltac:(lia) Hk) as (_ & Hc & _).
  destruct (next_n_fresh_fields get (make_result F tuples) dbg k Hk) as (Hf & Hr).
  set (this := snd (next_n k (fresh get (make_result F tuples) dbg))) in *.
  change (PQnfields (make_result F tuples)) with F in Hf.
  rewrite (uint32_small F) in Hf by lia.
  assert (Hra : row_arg (_handle this)
                = Z.of_nat (Nat.min k (List.length tuples) - 1)).
  { unfold row_arg. rewrite Hc, to_int_small by lia. lia. }
  assert (Hca : col_arg index = index).
  { unfold col_arg. apply to_int_small. lia. }
  assert (Hcellv : pg_cell F tuples (row_arg (_handle this)) (col_arg index)
                   = Some cell).
  { rewrite Hra, Hca.
    apply pg_cell_inside with (row := row); try lia.
    - rewrite Nat2Z.id. exact Hrow.
    - exact Hcell. }
  unfold _bind_text_result, _bind_boolean_result, _bind_floating_point_result,
    _bind_integral_result.
  rewrite Hf, Hr.
  destruct (Z.ltb_spec F index); [ lia | ].
  unfold make_result; cbn [PQgetvalue PQgetlength PQgetisnull].
  rewrite Hcellv.
  destruct cell as [text |]; simpl; repeat split; reflexivity.
Qed.

(** X12. On a libpq buffer with [F] columns, after any [k >= 1] calls of
    [next_impl] on a fresh cursor, a decoder called with [index = F] passes
    the bounds check although the buffer has no such column: the text
    decoder returns a null pointer with length 0, and the three scalar
    decoders build a string from the null pointer, which is undefined. *)
Theorem decoding_at_field_count_reads_no_cell
    (get : Z) (dbg : bool) (F : Z) (tuples : pg_table) (k : nat)
    (vb : Z) (vd : double) (vi : Z) (vt : option string) (lt : Z) (n : bool) :
  (1 <= k)%nat ->
  0 <= F < 2 ^ 31 ->
  ended (_bind_text_result (snd (next_n k (fresh get (make_result F tuples) dbg)))
           F vt lt)
  = Returns (None, 0) /\
  ended (_bind_boolean_result (snd (next_n k (fresh get (make_result F tuples) dbg)))
           F vb n)
  = Undefined /\
  ended (_bind_floating_point_result num_get_double
           (snd (next_n k (fresh get (make_result F tuples) dbg))) F vd n)
  = Undefined /\
  ended (_bind_integral_result (snd (next_n k (fresh get (make_result F tuples) dbg)))
           F vi n)
  = Undefined.
Proof.
  intros Hk HF.
  destruct (next_n_fresh_fields get (make_result F tuples) dbg k Hk) as (Hf & Hr).
  set (this := snd (next_n k (fresh get (make_result F tuples) dbg))) in *.
  change (PQnfields (make_result F tuples)) with F in Hf.
  rewrite (uint32_small F) in Hf by lia.
  assert (Hcell : pg_cell F tuples (row_arg (_handle this)) (col_arg F) = None).
  { apply pg_cell_outside. left. unfold col_arg. rewrite to_int_small; lia. }
  unfold _bind_text_result, _bind_boolean_result, _bind_floating_point_result,
    _bind_integral_result.
  rewrite Hf, Hr.
  destruct (Z.ltb_spec F F); [ lia | ].
  unfold make_result; cbn [PQgetvalue PQgetlength PQgetisnull].
  rewrite Hcell. repeat split; reflexivity.
Qed.

(** X13. On a libpq buffer without rows, after any [k >= 1] calls of
    [next_impl] on a fresh cursor (each of which returned [true]), no decoder
    finds a cell: for every [index] that passes the bounds check the text
    decoder returns a null pointer with length 0 and the three scalar
    decoders are undefined. *)
Theorem decoding_on_empty_buffer_reads_no_cell
    (get : Z) (dbg : bool) (F : Z) (k : nat) (index : Z)
    (vb : Z) (vd : double) (vi : Z) (vt : option string) (lt : Z) (n : bool) :
  (1 <= k)%nat ->
  0 <= F < 2 ^ 32 ->
  index <= F ->
  fst (next_n k (fresh get (make_result F []) dbg)) = repeat (Returns true) k /\
  ended (_bind_text_result (snd (next_n k (fresh get (make_result F []) dbg)))
           index vt lt)
  = Returns (None, 0) /\
  ended (_bind_boolean_result (snd (next_n k (fresh get (make_result F []) dbg)))
           index vb n)
  = Undefined /\
  ended (_bind_floating_point_result num_get_double
           (snd (next_n k (fresh get (make_result F []) dbg))) index vd n)
  = Undefined /\
  ended (_bind_integral_result (snd (next_n k (fresh get (make_result F []) dbg)))
           index vi n)
  = Undefined.
Proof.
  intros Hk HF Hi.
  destruct (next_n_zero_rows k (fresh get (make_result F []) dbg) eq_refl eq_refl)
    as (Hl & _ & _).
  split; [ exact Hl | ].
  destruct (next_n_fresh_fields get (make_result F []) dbg k Hk) as (Hf & Hr).
  set (this := snd (next_n k (fresh get (make_result F []) dbg))) in *.
  change (PQnfields (make_result F [])) with F in Hf.
  rewrite (uint32_small F) in Hf by lia.
  assert (Hcell : pg_cell F [] (row_arg (_handle this)) (col_arg index) = None).
  { apply pg_cell_outside. right. reflexivity. }
  unfold _bind_text_result, _bind_boolean_result, _bind_floating_point_result,
    _bind_integral_result.
  rewrite Hf, Hr.
  destruct (Z.ltb_spec F index); [ lia | ].
  unfold make_result; cbn [PQgetvalue PQgetlength PQgetisnull].
  rewrite Hcell. repeat split; reflexivity.
Qed.

End LibpqBuffers.

(** The cell [2.5] of the second sample row, after two calls. *)
Lemma decoders_read_the_current_cell_witness :
  (1 <= 2)%nat /\
  0 <= 3 < 2 ^ 31 /\
  Z.of_nat (List.length sample_table) < 2 ^ 31 /\
  0 <= 1 < 3 /\
  nth_error sample_table (Nat.min 2 (List.length sample_table) - 1)
  = Some [Some "f"; Some "2.5"; Some "99999999999999999999"]%string /\
  nth_error [Some "f"; Some "2.5"; Some "99999999999999999999"]%string (Z.to_nat 1)
  = Some (Some "2.5"%string) /\
  ended (_bind_text_result
           (snd (next_n 2 (fresh 4096 (make_result 3 sample_table) false))) 1 None 0)
  = Returns (Some "2.5"%string, 3) /\
  ended (_bind_boolean_result
           (snd (next_n 2 (fresh 4096 (make_result 3 sample_table) false))) 1 0 true)
  = Returns (50, false) /\
  ended (_bind_floating_point_result sample_num_get_double
           (snd (next_n 2 (fresh 4096 (make_result 3 sample_table) false))) 1 0 true)
  = Returns (2, false) /\
  ended (_bind_integral_result
           (snd (next_n 2 (fresh 4096 (make_result 3 sample_table) false))) 1 0 true)
  = Returns (2, false).
Proof.
  split; [ lia | ].
  split; [ vm_compute; split; [ discriminate | reflexivity ] | ].
  split; [ reflexivity | ].
  split; [ lia | ].
  split; [ reflexivity | ].
  split; [ reflexivity | ].
  apply (decoders_read_the_current_cell Z sample_num_get_double 4096 false 3
           sample_table 2 1
           [Some "f"; Some "2.5"; Some "99999999999999999999"]%string
           (Some "2.5"%string) 0 0 0 None 0 true).
  - lia.
  - vm_compute; split; [ discriminate | reflexivity ].
  - reflexivity.
  - lia.
  - reflexivity.
  - reflexivity.
Defined.

(** The sample buffer has three columns; index 3 after one call. *)
Lemma decoding_at_field_count_reads_no_cell_witness :
  (1 <= 1)%nat /\
  0 <= 3 < 2 ^ 31 /\
  ended (_bind_text_result
           (snd (next_n 1 (fresh 4096 (make_result 3 sample_table) false))) 3 None 0)
  = Returns (None, 0) /\
  ended (_bind_boolean_result
           (snd (next_n 1 (fresh 4096 (make_result 3 sample_table) false))) 3 0 true)
  = Undefined /\
  ended (_bind_floating_point_result sample_num_get_double
           (snd (next_n 1 (fresh 4096 (make_result 3 sample_table) false))) 3 0 true)
  = Undefined /\
  ended (_bind_integral_result
           (snd (next_n 1 (fresh 4096 (make_result 3 sample_table) false))) 3 0 true)
  = Undefined.
Proof.
  split; [ lia | ].
  split; [ vm_compute; split; [ discriminate | reflexivity ] | ].
  apply (decoding_at_field_count_reads_no_cell Z sample_num_get_double 4096 false 3
           sample_table 1 0 0 0 None 0 true).
  - lia.
  - vm_compute; split; [ discriminate | reflexivity ].
Defined.

(** A buffer of two columns and no row; column 1 after three calls. *)
Lemma decoding_on_empty_buffer_reads_no_cell_witness :
  (1 <= 3)%nat /\
  0 <= 2 < 2 ^ 32 /\
  1 <= 2 /\
  fst (next_n 3 (fresh 4096 (make_result 2 []) false)) = repeat (Returns true) 3 /\
  ended (_bind_text_result (snd (next_n 3 (fresh 4096 (make_result 2 []) false)))
           1 None 0)
  = Returns (None, 0) /\
  ended (_bind_boolean_result (snd (next_n 3 (fresh 4096 (make_result 2 []) false)))
           1 0 true)
  = Undefined /\
  ended (_bind_floating_point_result sample_num_get_double
           (snd (next_n 3 (fresh 4096 (make_result 2 []) false))) 1 0 true)
  = Undefined /\
  ended (_bind_integral_result (snd (next_n 3 (fresh 4096 (make_result 2 []) false)))
           1 0 true)
  = Undefined.
Proof.
  split; [ lia | ].
  split; [ vm_compute; split; [ discriminate | reflexivity ] | ].
  split; [ lia | ].
  apply (decoding_on_empty_buffer_reads_no_cell Z sample_num_get_double 4096 false 2
           3 1 0 0 0 None 0 true).
  - lia.
  - vm_compute; split; [ discriminate | reflexivity ].
  - lia.
Defined.

(** The numerals written for the bounds of [int64_t] and for 0. *)
Example decimal_text_samples :
  decimal_text 0 = "0"%string /\
  decimal_text (-7) = "-7"%string /\
  decimal_text INT64_MAX = "9223372036854775807"%string /\
  decimal_text INT64_MIN = "-9223372036854775808"%string.
Proof. repeat split; reflexivity. Qed.

(** *** Exhaustion and traces *)

(** X14. A [false] from [next_impl] is final, from whatever state it comes:
    the call that returned it changed nothing, and every later call returns
    [false] again and changes nothing. *)
Theorem exhaustion_is_absorbing (this : bind_result_t) (k : nat) :
  ended (next_impl this) = Returns false ->
  after (next_impl this) = this /\
  next_n k this = (repeat (Returns false) k, this).
Proof.
  intro H.
  assert (Ha : after (next_impl this) = this).
  { revert H. unfold next_impl.
    destruct (totalCount (_handle this) =? 0);
      [ | destruct (count (_handle this) <? uint32 (totalCount (_handle this) - 1)) ];
      simpl; intro H; first [ discriminate H | reflexivity ]. }
  split; [ exact Ha | ].
  induction k as [| k IH].
  - reflexivity.
  - rewrite next_n_S, Ha, IH, H. reflexivity.
Qed.

(** The sample buffer after its two rows were visited. *)
Lemma exhaustion_is_absorbing_witness :
  ended (next_impl (snd (next_n 2 (fresh 4096 sample_result false)))) = Returns false /\
  after (next_impl (snd (next_n 2 (fresh 4096 sample_result false))))
  = snd (next_n 2 (fresh 4096 sample_result false)) /\
  next_n 4 (snd (next_n 2 (fresh 4096 sample_result false)))
  = (repeat (Returns false) 4, snd (next_n 2 (fresh 4096 sample_result false))).
Proof.
  split; [ reflexivity | ].
  apply (exhaustion_is_absorbing (snd (next_n 2 (fresh 4096 sample_result false))) 4).
  reflexivity.
Defined.

Section Traces.

Variable double : Type.
Variable num_get_double : string -> double * bool.

(** X15. With the debug flag set every call writes exactly one line to
    [std::cerr], and writes it before anything else is decided: [next_impl]
    and the constructor name the address of the handle, each decoder names
    the index it was given, also when the call throws or has no defined
    behaviour.  With the flag unset the constructor writes nothing. *)
Theorem debug_flag_traces_every_call
    (this : bind_result_t) (get : Z) (h : prepared_statement_handle_t) (index : Z)
    (vb : Z) (vd : double) (vi : Z) (vt : option string) (lt : Z) (n : bool) :
  cerr (next_impl (with_debug this true))
  = [ {| message := "PostgreSQL debug: accessing next row of handle at ";
         operand := _handle_get this |} ] /\
  cerr (_bind_boolean_result (with_debug this true) index vb n)
  = [ {| message := "PostgreSQL debug: binding boolean result at index: ";
         operand := index |} ] /\
  cerr (_bind_floating_point_result num_get_double (with_debug this true) index vd n)
  = [ {| message := "PostgreSQL debug: binding floating_point result at index: ";
         operand := index |} ] /\
  cerr (_bind_integral_result (with_debug this true) index vi n)
  = [ {| message := "PostgreSQL debug: binding integral result at index: ";
         operand := index |} ] /\
  cerr (_bind_text_result (with_debug this true) index vt lt)
  = [ {| message := "PostgreSQL debug: binding text result at index: ";
         operand := index |} ] /\
  snd (bind_result_t_ctor get (set_debug h true))
  = [ {| message := "PostgreSQL debug: constructing bind result, using handle at: ";
         operand := get |} ] /\
  snd (bind_result_t_ctor get (set_debug h false)) = [] /\
  _handle (fst (bind_result_t_ctor get h)) = h.
Proof.
  repeat split;
    unfold next_impl, _bind_boolean_result, _bind_floating_point_result,
      _bind_integral_result, _bind_text_result, with_debug, row_arg;
    cbn [_handle _handle_get with_handle set_debug result debug count totalCount
         fields trace];
    repeat match goal with
      | |- context [if ?c then _ else _] => destruct c; simpl
      | |- context [match PQgetvalue ?r ?x ?y with _ => _ end] =>
          destruct (PQgetvalue r x y); simpl
      end;
    reflexivity.
Qed.

End Traces.

(* ================================================================== *)
(** ** Part VII. What a failed extraction leaves behind                *)
(* ================================================================== *)

Lemma isspace_white_space (c : ascii) :
  isspace c = true <-> In c white_space.
Proof.
  split.
  - destruct c as [[] [] [] [] [] [] [] []]; vm_compute; intro H;
      first [ discriminate H | auto 10 ].
  - intro H. unfold white_space in H. simpl in H.
    repeat (destruct H as [H | H]; [ subst c; reflexivity | ]).
    contradiction.
Qed.

Lemma skipws_leading (ws : list ascii) (s : string) :
  Forall (fun c => In c white_space) ws ->
  skipws (string_of_list_ascii ws ++ s) = skipws s.
Proof.
  induction 1 as [| c ws Hc _ IH]; [ reflexivity | ].
  simpl. apply isspace_white_space in Hc. rewrite Hc. exact IH.
Qed.

Lemma skipws_head (c : ascii) (r : string) :
  isspace c = false -> skipws (String c r) = String c r.
Proof. intro H. simpl. rewrite H. reflexivity. Qed.

Lemma digit_of_inv (c : ascii) (d : Z) :
  digit_of c = Some d -> 0 <= d <= 9 /\ c = digit_char d.
Proof.
  unfold digit_of.
  destruct (Nat.leb 48 (nat_of_ascii c) && Nat.leb (nat_of_ascii c) 57)%bool eqn:E;
    [ | discriminate ].
  intro H. injection H as <-.
  apply andb_prop in E. destruct E as [E1 E2].
  apply Nat.leb_le in E1. apply Nat.leb_le in E2.
  split; [ lia | ].
  unfold digit_char.
  replace (48 + (Z.of_nat (nat_of_ascii c) - 48)) with (Z.of_nat (nat_of_ascii c))
    by lia.
  rewrite Nat2Z.id. symmetry. apply ascii_nat_embedding.
Qed.

Lemma digit_char_plain (d : Z) :
  0 <= d <= 9 ->
  isspace (digit_char d) = false /\
  digit_char d <> "-"%char /\ digit_char d <> "+"%char.
Proof.
  intro H.
  assert (E : d = 0 \/ d = 1 \/ d = 2 \/ d = 3 \/ d = 4 \/
              d = 5 \/ d = 6 \/ d = 7 \/ d = 8 \/ d = 9) by lia.
  repeat (destruct E as [E | E];
          [ subst d; repeat split; vm_compute; discriminate | ]).
  subst d; repeat split; vm_compute; discriminate.
Qed.

(** Reading a numeral that the rest does not continue. *)
Lemma read_digits_numeral (ds : list Z) (rest : string) :
  Forall (fun d => 0 <= d <= 9) ds ->
  match rest with
  | EmptyString => True
  | String c _ => forall d, 0 <= d <= 9 -> c <> digit_char d
  end ->
  forall acc,
    read_digits (numeral_text ds ++ rest) acc
    = match ds with
      | [] => acc
      | _ => Some (fold_left (fun a d => 10 * a + d) ds
                     match acc with Some a => a | None => 0 end)
      end.
Proof.
  intros Hds Hrest. induction Hds as [| d ds Hd _ IH]; intro acc.
  - simpl. destruct rest as [| c r]; [ reflexivity | ].
    cbn [read_digits]. destruct (digit_of c) as [d |] eqn:E; [ | reflexivity ].
    apply digit_of_inv in E. destruct E as (Hd & Ec).
    exfalso. exact (Hrest d Hd Ec).
  - change (numeral_text (d :: ds) ++ rest)%string
      with (String (digit_char d) (numeral_text ds ++ rest)).
    rewrite read_digits_digit by exact Hd.
    rewrite IH. destruct ds; reflexivity.
Qed.

(** A field that does not start with a sign is read from its first
    character. *)
Lemma num_get_long_unsigned (c : ascii) (r : string) :
  c <> "-"%char -> c <> "+"%char ->
  num_get_long (String c r)
  = match read_digits (String c r) None with
    | None => (0, true)
    | Some n =>
        if INT64_MAX <? n then (INT64_MAX, true)
        else if n <? INT64_MIN then (INT64_MIN, true)
        else (n, false)
    end.
Proof.
  intros Hm Hp.
  destruct c as [[] [] [] [] [] [] [] []];
    first [ reflexivity
          | exfalso; apply Hm; reflexivity
          | exfalso; apply Hp; reflexivity ].
Qed.

Lemma num_get_long_plus (rest : string) :
  sentry (String "+"%char rest) = Some (String "+"%char rest) /\
  num_get_long (String "+"%char rest)
  = match read_digits rest None with
    | None => (0, true)
    | Some n =>
        if INT64_MAX <? n then (INT64_MAX, true)
        else if n <? INT64_MIN then (INT64_MIN, true)
        else (n, false)
    end.
Proof. split; reflexivity. Qed.

(** The field that is left when the leading white space is skipped. *)
Lemma shape_field (sign : option bool) (ds : list Z) (rest : string) :
  Forall (fun d => 0 <= d <= 9) ds ->
  field_end sign ds rest ->
  ((sign_text sign ++ numeral_text ds ++ rest)%string = EmptyString
   <-> blank sign ds rest) /\
  (forall c r,
      (sign_text sign ++ numeral_text ds ++ rest)%string = String c r ->
      isspace c = false).
Proof.
  intros Hds Hend. unfold blank.
  destruct sign as [[|] |].
  - split; [ split; [ discriminate | intros (H & _); discriminate H ] | ].
    intros c r E. injection E as <- _. reflexivity.
  - split; [ split; [ discriminate | intros (H & _); discriminate H ] | ].
    intros c r E. injection E as <- _. reflexivity.
  - destruct Hds as [| d ds Hd _].
    + change (sign_text None ++ numeral_text [] ++ rest)%string with rest.
      split; [ split; [ intro E; auto | intros (_ & _ & E); exact E ] | ].
      intros c r E. subst rest. simpl in Hend.
      destruct Hend as (_ & Hc). destruct (Hc eq_refl eq_refl) as (Hw & _).
      destruct (isspace c) eqn:Ec; [ | reflexivity ].
      exfalso. apply Hw. apply isspace_white_space. exact Ec.
    + split; [ split; [ discriminate | intros (_ & H & _); discriminate H ] | ].
      intros c r E.
      change (sign_text None ++ numeral_text (d :: ds) ++ rest)%string
        with (String (digit_char d) (numeral_text ds ++ rest)) in E.
      injection E as <- _. apply digit_char_plain. exact Hd.
Qed.

Lemma sentry_shape (ws : list ascii) (sign : option bool) (ds : list Z)
    (rest : string) :
  Forall (fun c => In c white_space) ws ->
  Forall (fun d => 0 <= d <= 9) ds ->
  field_end sign ds rest ->
  sentry (cell_shape ws sign ds rest)
  = match (sign_text sign ++ numeral_text ds ++ rest)%string with
    | EmptyString => None
    | field => Some field
    end.
Proof.
  intros Hws Hds Hend. unfold sentry, cell_shape.
  rewrite skipws_leading by exact Hws.
  destruct (shape_field sign ds rest Hds Hend) as (_ & Hhead).
  destruct (sign_text sign ++ numeral_text ds ++ rest)%string as [| c r];
    [ reflexivity | ].
  rewrite skipws_head by (apply (Hhead c r); reflexivity).
  reflexivity.
Qed.

(** What [operator>>(long &)] stores for a text of a given shape. *)
Lemma extract_long_shape (ws : list ascii) (sign : option bool) (ds : list Z)
    (rest : string) (old : Z) :
  Forall (fun c => In c white_space) ws ->
  Forall (fun d => 0 <= d <= 9) ds ->
  field_end sign ds rest ->
  (blank sign ds rest ->
   extract_long (cell_shape ws sign ds rest) old = (old, true)) /\
  (~ blank sign ds rest -> ds = [] ->
   extract_long (cell_shape ws sign ds rest) old = (0, true)) /\
  (ds <> [] ->
   extract_long (cell_shape ws sign ds rest) old
   = stored_long (signed_value sign ds)).
Proof.
  intros Hws Hds Hend.
  assert (Hrest : match rest with
                  | EmptyString => True
                  | String c _ => forall d, 0 <= d <= 9 -> c <> digit_char d
                  end).
  { destruct rest; [ exact I | apply Hend ]. }
  pose proof (read_digits_numeral ds rest Hds Hrest None) as Hread.
  unfold extract_long. rewrite (sentry_shape ws sign ds rest Hws Hds Hend).
  unfold blank, stored_long, signed_value, numeral_value.
  destruct sign as [[|] |].
  - (* minus *)
    change (sign_text (Some true) ++ numeral_text ds ++ rest)%string
      with (String "-"%char (numeral_text ds ++ rest)).
    destruct (num_get_long_minus (numeral_text ds ++ rest)) as (_ & Hn).
    rewrite Hn, Hread.
    repeat split.
    + intros (H & _). discriminate H.
    + intros _ E. subst ds. reflexivity.
    + intro Hne. destruct ds; [ contradiction | reflexivity ].
  - (* plus *)
    change (sign_text (Some false) ++ numeral_text ds ++ rest)%string
      with (String "+"%char (numeral_text ds ++ rest)).
    destruct (num_get_long_plus (numeral_text ds ++ rest)) as (_ & Hn).
    rewrite Hn, Hread.
    repeat split.
    + intros (H & _). discriminate H.
    + intros _ E. subst ds. reflexivity.
    + intro Hne. destruct ds; [ contradiction | reflexivity ].
  - (* no sign *)
    change (sign_text None ++ numeral_text ds ++ rest)%string
      with (numeral_text ds ++ rest)%string in *.
    destruct Hds as [| d ds Hd Hds].
    + change (numeral_text [] ++ rest)%string with rest in *.
      destruct rest as [| c r].
      * repeat split; try reflexivity.
        -- intros Hnb _. exfalso. apply Hnb. repeat split.
        -- intro Hne. contradiction.
      * simpl in Hend. destruct Hend as (_ & Hc).
        destruct (Hc eq_refl eq_refl) as (_ & Hm & Hp).
        rewrite (num_get_long_unsigned c r Hm Hp), Hread.
        repeat split.
        -- intros (_ & _ & H). discriminate H.
        -- intro Hne. contradiction.
    + change (numeral_text (d :: ds) ++ rest)%string
        with (String (digit_char d) (numeral_text ds ++ rest)) in *.
      destruct (digit_char_plain d Hd) as (_ & Hm & Hp).
      rewrite (num_get_long_unsigned _ _ Hm Hp), Hread.
      repeat split.
      * intros (_ & H & _). discriminate H.
      * intros _ H. discriminate H.
Qed.

Lemma blank_dec (sign : option bool) (ds : list Z) (rest : string) :
  blank sign ds rest \/ ~ blank sign ds rest.
Proof.
  unfold blank.
  destruct sign; [ right; intros (H & _); discriminate H | ].
  destruct ds; [ | right; intros (_ & H & _); discriminate H ].
  destruct rest; [ left; repeat split | right; intros (_ & _ & H); discriminate H ].
Qed.

(** [operator>>(signed char &)] fails on a blank text only. *)
Lemma extract_schar_shape (ws : list ascii) (sign : option bool) (ds : list Z)
    (rest : string) (old : Z) :
  Forall (fun c => In c white_space) ws ->
  Forall (fun d => 0 <= d <= 9) ds ->
  field_end sign ds rest ->
  (blank sign ds rest ->
   extract_schar (cell_shape ws sign ds rest) old = (old, true)) /\
  (~ blank sign ds rest ->
   snd (extract_schar (cell_shape ws sign ds rest) old) = false).
Proof.
  intros Hws Hds Hend.
  unfold extract_schar. rewrite (sentry_shape ws sign ds rest Hws Hds Hend).
  destruct (shape_field sign ds rest Hds Hend) as (Hb & _).
  destruct (sign_text sign ++ numeral_text ds ++ rest)%string as [| c r].
  - split; [ reflexivity | ].
    intro Hnb. exfalso. apply Hnb. apply Hb. reflexivity.
  - split; [ | reflexivity ].
    intro Hbl. apply Hb in Hbl. discriminate Hbl.
Qed.

Lemma stored_long_failbit (v : Z) :
  (snd (stored_long v) = true <-> INT64_MAX < v \/ v < INT64_MIN) /\
  (INT64_MAX < v -> fst (stored_long v) = INT64_MAX) /\
  (v < INT64_MIN -> fst (stored_long v) = INT64_MIN) /\
  (INT64_MIN <= v <= INT64_MAX -> fst (stored_long v) = v).
Proof.
  unfold stored_long, INT64_MAX, INT64_MIN.
  destruct (Z.ltb_spec (2 ^ 63 - 1) v);
    [ | destruct (Z.ltb_spec v (- 2 ^ 63)) ];
    simpl; repeat split; intros; try lia; try reflexivity; try discriminate;
    auto.
Qed.

Section FailedExtraction.

Variable double : Type.
Variable num_get_double : string -> double * bool.

(** C5, as the code has it. Take a cell whose text is leading white space,
    an optional sign, decimal digits and a rest that does not continue them,
    at a column index that passes the bounds check, with row cursor and
    index in the range of [int].  The three scalar decoders return, and
    [is_null] is [true] exactly when the buffer's null marker for the cell is
    not 0.  The boolean extraction sets failbit exactly for a blank text; the
    integral extraction sets it exactly for a blank text, a text without
    digits, and a number outside [int64_t].  After a failed extraction
    [value] holds: what the caller passed, for a blank text (all three
    decoders); 0, for an integral text without digits; [INT64_MAX] for a
    number above it and [INT64_MIN] for a number below it.  A number inside
    [int64_t] is stored as it is. *)
Theorem parse_failure_is_swallowed
    (this : bind_result_t) (index : Z)
    (ws : list ascii) (sign : option bool) (ds : list Z) (rest : string)
    (vb : Z) (vd : double) (vi : Z) (n : bool) :
  0 <= count (_handle this) < 2 ^ 31 ->
  0 <= index < 2 ^ 31 ->
  index <= fields (_handle this) ->
  Forall (fun c => In c white_space) ws ->
  Forall (fun d => 0 <= d <= 9) ds ->
  field_end sign ds rest ->
  PQgetvalue (result (_handle this)) (count (_handle this)) index
  = Some (cell_shape ws sign ds rest) ->
  exists (b : Z) (d : double) (i : Z),
    ended (_bind_boolean_result this index vb n)
    = Returns (b, negb (PQgetisnull (result (_handle this))
                          (count (_handle this)) index =? 0)) /\
    ended (_bind_floating_point_result num_get_double this index vd n)
    = Returns (d, negb (PQgetisnull (result (_handle this))
                          (count (_handle this)) index =? 0)) /\
    ended (_bind_integral_result this index vi n)
    = Returns (i, negb (PQgetisnull (result (_handle this))
                          (count (_handle this)) index =? 0)) /\
    (snd (extract_schar (cell_shape ws sign ds rest) vb) = true
     <-> blank sign ds rest) /\
    (snd (extract_long (cell_shape ws sign ds rest) vi) = true
     <-> blank sign ds rest \/ ds = [] \/
         INT64_MAX < signed_value sign ds \/ signed_value sign ds < INT64_MIN) /\
    (blank sign ds rest -> b = vb /\ d = vd /\ i = vi) /\
    (~ blank sign ds rest -> ds = [] -> i = 0) /\
    (ds <> [] -> INT64_MAX < signed_value sign ds -> i = INT64_MAX) /\
    (ds <> [] -> signed_value sign ds < INT64_MIN -> i = INT64_MIN) /\
    (ds <> [] -> INT64_MIN <= signed_value sign ds <= INT64_MAX ->
     i = signed_value sign ds).
Proof.
  intros Hc Hx Hi Hws Hds Hend Hv.
  exists (fst (extract_schar (cell_shape ws sign ds rest) vb)),
         (fst (extract_double num_get_double (cell_shape ws sign ds rest) vd)),
         (fst (extract_long (cell_shape ws sign ds rest) vi)).
  destruct (extract_long_shape ws sign ds rest vi Hws Hds Hend) as (Lb & Ln & Lv).
  destruct (extract_schar_shape ws sign ds rest vb Hws Hds Hend) as (Cb & Cn).
  destruct (stored_long_failbit (signed_value sign ds)) as (Sf & Smax & Smin & Sin).
  split; [ | split; [ | split ] ].
  1-3: unfold _bind_boolean_result, _bind_floating_point_result,
         _bind_integral_result;
       destruct (Z.ltb_spec (fields (_handle this)) index); [ lia | ];
       unfold row_arg, col_arg;
       rewrite (to_int_small (count (_handle this)) Hc), (to_int_small index Hx), Hv;
       reflexivity.
  split; [ | split; [ | split; [ | split; [ | split; [ | split ] ] ] ] ].
  - (* failbit of the boolean extraction *)
    destruct (blank_dec sign ds rest) as [Hb | Hnb].
    + rewrite (Cb Hb). split; [ intros _; exact Hb | reflexivity ].
    + rewrite (Cn Hnb). split; [ discriminate | intro Hb; contradiction ].
  - (* failbit of the integral extraction *)
    destruct (blank_dec sign ds rest) as [Hb | Hnb].
    + rewrite (Lb Hb). split; [ intros _; left; exact Hb | reflexivity ].
    + destruct ds as [| d0 ds0].
      * rewrite (Ln Hnb eq_refl). split; [ intros _; right; left | ]; reflexivity.
      * rewrite Lv by discriminate. rewrite Sf.
        split; [ intro H; right; right; exact H | ].
        intros [H | [H | H]]; [ contradiction | discriminate H | exact H ].
  - (* blank *)
    intro Hb. rewrite (Cb Hb), (Lb Hb).
    unfold extract_double. rewrite (sentry_shape ws sign ds rest Hws Hds Hend).
    destruct (shape_field sign ds rest Hds Hend) as (Hf & _).
    apply Hf in Hb. rewrite Hb. repeat split.
  - intros Hnb E. rewrite (Ln Hnb E). reflexivity.
  - intros Hne H. rewrite (Lv Hne). exact (Smax H).
  - intros Hne H. rewrite (Lv Hne). exact (Smin H).
  - intros Hne H. rewrite (Lv Hne). exact (Sin H).
Qed.

End FailedExtraction.

(** C5 witness: the last cell of the second sample row, twenty digits 9 and
    nothing else: a number above [INT64_MAX]. *)
Lemma parse_failure_is_swallowed_witness :
  0 <= count (_handle (snd (next_n 2 (fresh 4096 sample_result false)))) < 2 ^ 31 /\
  0 <= 2 < 2 ^ 31 /\
  2 <= fields (_handle (snd (next_n 2 (fresh 4096 sample_result false)))) /\
  Forall (fun c => In c white_space) [] /\
  Forall (fun d => 0 <= d <= 9) (repeat 9 20) /\
  field_end None (repeat 9 20) EmptyString /\
  PQgetvalue sample_result 1 2 = Some (cell_shape [] None (repeat 9 20) EmptyString) /\
  exists (b d i : Z),
    ended (_bind_boolean_result (snd (next_n 2 (fresh 4096 sample_result false)))
             2 1 true)
    = Returns (b, negb (PQgetisnull sample_result 1 2 =? 0)) /\
    ended (_bind_floating_point_result sample_num_get_double
             (snd (next_n 2 (fresh 4096 sample_result false))) 2 5 true)
    = Returns (d, negb (PQgetisnull sample_result 1 2 =? 0)) /\
    ended (_bind_integral_result (snd (next_n 2 (fresh 4096 sample_result false)))
             2 7 true)
    = Returns (i, negb (PQgetisnull sample_result 1 2 =? 0)) /\
    (snd (extract_schar (cell_shape [] None (repeat 9 20) EmptyString) 1) = true
     <-> blank None (repeat 9 20) EmptyString) /\
    (snd (extract_long (cell_shape [] None (repeat 9 20) EmptyString) 7) = true
     <-> blank None (repeat 9 20) EmptyString \/ repeat 9 20 = [] \/
         INT64_MAX < signed_value None (repeat 9 20) \/
         signed_value None (repeat 9 20) < INT64_MIN) /\
    (blank None (repeat 9 20) EmptyString -> b = 1 /\ d = 5 /\ i = 7) /\
    (~ blank None (repeat 9 20) EmptyString -> repeat 9 20 = [] -> i = 0) /\
    (repeat 9 20 <> [] -> INT64_MAX < signed_value None (repeat 9 20) ->
     i = INT64_MAX) /\
    (repeat 9 20 <> [] -> signed_value None (repeat 9 20) < INT64_MIN ->
     i = INT64_MIN) /\
    (repeat 9 20 <> [] ->
     INT64_MIN <= signed_value None (repeat 9 20) <= INT64_MAX ->
     i = signed_value None (repeat 9 20)).
Proof.
  assert (Hds : Forall (fun d => 0 <= d <= 9) (repeat 9 20)).
  { apply Forall_forall. intros x Hx. apply repeat_spec in Hx. lia. }
  split; [ vm_compute; split; [ discriminate | reflexivity ] | ].
  split; [ vm_compute; split; [ discriminate | reflexivity ] | ].
  split; [ vm_compute; discriminate | ].
  split; [ constructor | ].
  split; [ exact Hds | ].
  split; [ exact I | ].
  split; [ reflexivity | ].
  apply (parse_failure_is_swallowed Z sample_num_get_double
           (snd (next_n 2 (fresh 4096 sample_result false))) 2
           [] None (repeat 9 20) EmptyString 1 5 7 true).
  - vm_compute; split; [ discriminate | reflexivity ].
  - vm_compute; split; [ discriminate | reflexivity ].
  - vm_compute; discriminate.
  - constructor.
  - exact Hds.
  - exact I.
  - reflexivity.
Defined.

(** The other ways an extraction fails, on [failing_result]: a blank text
    leaves [value] as passed, a text without digits and a sign alone store 0,
    a number below [INT64_MIN] stores [INT64_MIN]; the boolean decoder reads
    a character from every text that is not blank. *)
Example failed_extraction_samples :
  let this := snd (next_n 1 (fresh 4096 failing_result false)) in
  ended (_bind_integral_result this 0 7 true) = Returns (7, false) /\
  ended (_bind_boolean_result this 0 7 true) = Returns (7, false) /\
  ended (_bind_integral_result this 1 7 true) = Returns (0, false) /\
  ended (_bind_boolean_result this 1 7 true) = Returns (97, false) /\
  ended (_bind_integral_result this 2 7 true) = Returns (INT64_MIN, false) /\
  ended (_bind_integral_result this 3 7 true) = Returns (0, false).
Proof. repeat split; reflexivity. Qed.

(** *** Every text has a shape *)

Lemma leading_white_space (s : string) :
  exists ws field,
    Forall (fun c => In c white_space) ws /\
    s = (string_of_list_ascii ws ++ field)%string /\
    match field with
    | EmptyString => True
    | String c _ => ~ In c white_space
    end.
Proof.
  induction s as [| c s IH].
  - exists [], EmptyString. repeat split. constructor.
  - destruct (isspace c) eqn:E.
    + destruct IH as (ws & field & Hws & Hs & Hf).
      exists (c :: ws), field. repeat split.
      * constructor; [ apply isspace_white_space; exact E | exact Hws ].
      * simpl. rewrite <- Hs. reflexivity.
      * exact Hf.
    + exists [], (String c s). repeat split; [ constructor | ].
      intro H. apply isspace_white_space in H. congruence.
Qed.

Lemma leading_digits (s : string) :
  exists ds rest,
    Forall (fun d => 0 <= d <= 9) ds /\
    s = (numeral_text ds ++ rest)%string /\
    match rest with
    | EmptyString => True
    | String c _ => forall d, 0 <= d <= 9 -> c <> digit_char d
    end.
Proof.
  induction s as [| c s IH].
  - exists [], EmptyString. repeat split. constructor.
  - destruct (digit_of c) as [d |] eqn:E.
    + apply digit_of_inv in E. destruct E as (Hd & Ec).
      destruct IH as (ds & rest & Hds & Hs & Hr).
      exists (d :: ds), rest. repeat split.
      * constructor; assumption.
      * subst c. rewrite Hs. reflexivity.
      * exact Hr.
    + exists [], (String c s). repeat split; [ constructor | ].
      intros d Hd Ec. subst c. rewrite digit_of_digit_char in E by exact Hd.
      discriminate E.
Qed.

(** Every text is leading white space, an optional sign, digits and a rest
    that does not continue them, so the shapes above cover every cell. *)
Lemma every_text_has_a_shape (text : string) :
  exists ws sign ds rest,
    Forall (fun c => In c white_space) ws /\
    Forall (fun d => 0 <= d <= 9) ds /\
    field_end sign ds rest /\
    text = cell_shape ws sign ds rest.
Proof.
  destruct (leading_white_space text) as (ws & field & Hws & Ht & Hf).
  destruct field as [| c r].
  - exists ws, None, [], EmptyString. repeat split; [ exact Hws | constructor | exact Ht ].
  - destruct (ascii_dec c "-"%char) as [Em | Nm];
      [ | destruct (ascii_dec c "+"%char) as [Ep | Np] ].
    + destruct (leading_digits r) as (ds & rest & Hds & Hr & He).
      exists ws, (Some true), ds, rest. repeat split; try assumption.
      * unfold field_end. destruct rest; [ exact I | ].
        split; [ exact He | intro H; discriminate H ].
      * unfold cell_shape. rewrite Ht, Hr, Em. reflexivity.
    + destruct (leading_digits r) as (ds & rest & Hds & Hr & He).
      exists ws, (Some false), ds, rest. repeat split; try assumption.
      * unfold field_end. destruct rest; [ exact I | ].
        split; [ exact He | intro H; discriminate H ].
      * unfold cell_shape. rewrite Ht, Hr, Ep. reflexivity.
    + destruct (leading_digits (String c r)) as (ds & rest & Hds & Hr & He).
      exists ws, None, ds, rest. repeat split; try assumption.
      * unfold field_end. destruct rest as [| c' r']; [ exact I | ].
        split; [ exact He | ].
        intros _ E. subst ds. simpl in Hr. injection Hr as <- _.
        repeat split; assumption.
      * unfold cell_shape. rewrite Ht, Hr. reflexivity.
Qed.
